(** * Decoration layers of vscode-npm-outdated

    A shallow embedding of [DocumentDecorationManager],
    [DocumentDecorationLayer] and [DocumentDecoration] (Decoration.ts)
    together with the constant tables of Theme.ts, the properties of the
    layer bookkeeping that the specification states about them, and what
    the code keeps besides: invariants of the reachable states, what a
    paint shows, and how the methods compose. *)

From stdpp Require Import base option list gmap strings.

Local Open Scope string_scope.

(** ** JavaScript arrays with holes

    [layers] and [lines] are JavaScript arrays that are written by index
    ([a[i] = x], which extends the array and leaves holes), read by index
    ([a[i]], [undefined] on a hole and beyond the length), punched with
    [delete a[i]] and walked with [forEach] or [Object.values], which skip
    the holes and visit the rest in ascending index order. *)

Abbreviation SparseArray A := (list (option A)).

Definition sa_get {A} (a : SparseArray A) (i : nat) : option A :=
  match a !! i with
  | Some (Some x) => Some x
  | _ => None
  end.

Definition sa_set {A} (a : SparseArray A) (i : nat) (x : A) : SparseArray A :=
  if decide (i < length a)
  then <[i := Some x]> a
  else (a ++ replicate (i - length a) None ++ [Some x])%list.

Definition sa_delete {A} (a : SparseArray A) (i : nat) : SparseArray A :=
  <[i := None]> a.

Definition sa_values {A} (a : SparseArray A) : list A := omap id a.

Definition sa_map {A B} (f : A → B) (a : SparseArray A) : SparseArray B :=
  (λ o : option A, f <$> o) <$> a.

(** ** Messages and styles *)

(** The fields of [ThemableDecorationAttachmentRenderOptions] that the
    extension sets. *)
Record RenderOptions := {
  contentText : option string;
  color : option string;
  margin : option string;
}.

Definition override {A} (base over : option A) : option A :=
  match over with
  | Some v => Some v
  | None => base
  end.

(** Object spread [{ ...base, ...over }]: the later object wins on the
    properties it has. *)
Definition spread (base over : RenderOptions) : RenderOptions :=
  {| contentText := override (contentText base) (contentText over);
     color := override (color base) (color over);
     margin := override (margin base) (margin over) |}.

(** Spreading an optional style; [...undefined] adds nothing. *)
Definition spread_opt (base : RenderOptions) (over : option RenderOptions) : RenderOptions :=
  match over with
  | Some s => spread base s
  | None => base
  end.

Record Message := {
  message : string;
  styleDefault : option RenderOptions;
  styleDark : option RenderOptions;
}.

Definition onlyColor (c : string) : RenderOptions :=
  {| contentText := None; color := Some c; margin := None |}.

Definition onlyMargin (m : string) : RenderOptions :=
  {| contentText := None; color := None; margin := Some m |}.

Module Icons.
Definition CHECKING : string := "🗘".
Definition PENDING : string := "⭳".
Definition UPDATABLE : string := "⚠".
End Icons.

Module Margins.
Definition MARGIN_INITIAL : RenderOptions := onlyMargin "0 0 0 2ch".
Definition MARGIN_THEN : RenderOptions := onlyMargin "0 0 0 1ch".
End Margins.

Module ThemeLight.
Definition DEFAULT := onlyColor "silver".
Definition ICON_AVAILABLE := onlyColor "gray".
Definition ICON_UPDATABLE := onlyColor "gold".
Definition LABEL_FORMALIZATION := onlyColor "silver".
Definition LABEL_MAJOR := onlyColor "#A31515".
Definition LABEL_PENDING := onlyColor "gray".
Definition LABEL_PRERELEASE := onlyColor "#0451A5".
Definition LABEL_UPDATABLE := onlyColor "gray".
Definition LABEL_VERSION := onlyColor "#001080".
End ThemeLight.

Module ThemeDark.
Definition DEFAULT := onlyColor "gray".
Definition ICON_AVAILABLE := onlyColor "silver".
Definition ICON_UPDATABLE := onlyColor "yellow".
Definition LABEL_FORMALIZATION := onlyColor "gray".
Definition LABEL_MAJOR := onlyColor "#F97583".
Definition LABEL_PENDING := onlyColor "silver".
Definition LABEL_PRERELEASE := onlyColor "#B392F0".
Definition LABEL_UPDATABLE := onlyColor "silver".
Definition LABEL_VERSION := onlyColor "#9CDCFE".
End ThemeDark.

(** ** The host editor *)

Record Position := { pos_line : nat; pos_character : nat }.

Record Range := { range_start : Position; range_end : Position }.

(** [DecorationOptions] as [setLine] builds them: the range, and
    [renderOptions.after] and [renderOptions.dark.after]. *)
Record DecorationOptions := {
  range : Range;
  renderAfter : RenderOptions;
  renderDarkAfter : RenderOptions;
}.

(** Documents and decoration types are host objects compared by identity;
    they are numbered. *)
Record TextEditor := { editor_id : nat; editor_document : nat }.

Inductive HostCall :=
| SetDecorations (editor : nat) (decorationType : nat) (options : list DecorationOptions).

(** What the extension sees and changes of the host's [window]: the
    visible editors, how many decoration types were created so far (the
    next one gets that number), and the [setDecorations] calls received,
    oldest first. *)
Record Window := {
  visibleTextEditors : list TextEditor;
  decorationTypes : nat;
  calls : list HostCall;
}.

Definition createTextEditorDecorationType (win : Window) : nat * Window :=
  (decorationTypes win,
   {| visibleTextEditors := visibleTextEditors win;
      decorationTypes := S (decorationTypes win);
      calls := calls win |}).

Definition setDecorations (editor : TextEditor) (ty : nat)
    (options : list DecorationOptions) (win : Window) : Window :=
  {| visibleTextEditors := visibleTextEditors win;
     decorationTypes := decorationTypes win;
     calls := (calls win ++ [SetDecorations (editor_id editor) ty options])%list |}.

(** ** DocumentDecorationLayer and DocumentDecorationManager *)

Record DocumentDecorationLayer := {
  lines : SparseArray DecorationOptions;
  type : nat;
}.

Record DocumentDecorationManager := {
  layers : SparseArray DocumentDecorationLayer;
}.

(** [new DocumentDecorationLayer()] *)
Definition newLayer (win : Window) : DocumentDecorationLayer * Window :=
  let '(ty, win1) := createTextEditorDecorationType win in
  ({| lines := []; type := ty |}, win1).

(** The static [documents] table and the host window. A manager is only
    ever reached through the table and a layer only through its manager,
    so an update of either is written back at its key. *)
Record World := {
  documents : gmap nat DocumentDecorationManager;
  window : Window;
}.

Definition getLayer (layer : nat) (this : DocumentDecorationManager) (win : Window)
    : DocumentDecorationLayer * DocumentDecorationManager * Window :=
  match sa_get (layers this) layer with
  | None =>
      let '(fresh, win1) := newLayer win in
      (fresh, {| layers := sa_set (layers this) layer fresh |}, win1)
  | Some l => (l, this, win)
  end.

Definition emptied (l : DocumentDecorationLayer) : DocumentDecorationLayer :=
  {| lines := []; type := type l |}.

Definition flushLayers (this : DocumentDecorationManager) : DocumentDecorationManager :=
  {| layers := sa_map emptied (layers this) |}.

Definition fromDocument (document : nat) (w : World) : DocumentDecorationManager * World :=
  match documents w !! document with
  | Some m => (m, w)
  | None =>
      let m := {| layers := [] |} in
      (m, {| documents := <[document := m]> (documents w); window := window w |})
  end.

Definition clearOnEditors (document : nat) (win : Window) (layer : DocumentDecorationLayer) : Window :=
  foldl (λ win editor,
           if decide (editor_document editor = document)
           then setDecorations editor (type layer) [] win
           else win)
        win (visibleTextEditors win).

Definition flushDocument (document : nat) (w : World) : World :=
  let '(m, w1) := fromDocument document w in
  let win1 := foldl (clearOnEditors document) (window w1) (sa_values (layers m)) in
  {| documents := delete document (documents w1); window := win1 |}.

(** ** DocumentDecoration *)

(** Modelled from the spec: [lazyCallback] (./Utils) is not among the
    sources. [this.render()] asks for one paint of the document after a
    fixed delay, and a call made while a paint is already scheduled does
    not schedule another; [renderScheduled] records that a paint is due and
    [renderCallback] is the callback that the timer runs. *)
Record DocumentDecoration := {
  document : nat;
  editors : list TextEditor;
  flushed : bool;
  renderScheduled : bool;
}.

(** [new DocumentDecoration(document)] *)
Definition newDocumentDecoration (doc : nat) (w : World) : DocumentDecoration :=
  {| document := doc;
     editors := filter (λ editor, editor_document editor = doc)
                       (visibleTextEditors (window w));
     flushed := false;
     renderScheduled := false |}.

Definition render (this : DocumentDecoration) : DocumentDecoration :=
  {| document := document this; editors := editors this;
     flushed := flushed this; renderScheduled := true |}.

Definition paintOnEditors (this : DocumentDecoration) (win : Window)
    (layer : DocumentDecorationLayer) : Window :=
  foldl (λ win editor, setDecorations editor (type layer) (sa_values (lines layer)) win)
        win (editors this).

Definition renderCallback (this : DocumentDecoration) (w : World) : DocumentDecoration * World :=
  let '(m, w1) := fromDocument (document this) w in
  ({| document := document this; editors := editors this;
      flushed := flushed this; renderScheduled := false |},
   {| documents := documents w1;
      window := foldl (paintOnEditors this) (window w1) (sa_values (layers m)) |}).

(** The [DecorationOptions] literal of [setLine]. *)
Definition decorationOf (line messageIndex : nat) (m : Message) : DecorationOptions :=
  let at_end := {| pos_line := line; pos_character := 4096 |} in
  {| range := {| range_start := at_end; range_end := at_end |};
     renderAfter :=
       spread_opt
         (spread
            (spread {| contentText := Some (message m); color := None; margin := None |}
                    ThemeLight.DEFAULT)
            (if decide (messageIndex = 0) then Margins.MARGIN_INITIAL else Margins.MARGIN_THEN))
         (styleDefault m);
     renderDarkAfter := spread_opt ThemeDark.DEFAULT (styleDark m) |}.

(** [decorationLayer.lines[line] = ...] on the layer object at slot
    [layer] of the manager. *)
Definition setLayerLine (layer line : nat) (d : DecorationOptions)
    (decorationLayer : DocumentDecorationLayer) (m : DocumentDecorationManager)
    : DocumentDecorationManager :=
  {| layers := sa_set (layers m) layer
                 {| lines := sa_set (lines decorationLayer) line d;
                    type := type decorationLayer |} |}.

(** [messages.forEach((message, messageIndex) => ...)] of [setLine], from
    index [messageIndex] on. *)
Fixpoint storeMessages (line messageIndex : nat) (messages : list Message)
    (m : DocumentDecorationManager) (win : Window) : DocumentDecorationManager * Window :=
  match messages with
  | [] => (m, win)
  | message :: rest =>
      let '(decorationLayer, m1, win1) := getLayer messageIndex m win in
      storeMessages line (S messageIndex) rest
        (setLayerLine messageIndex line (decorationOf line messageIndex message)
           decorationLayer m1)
        win1
  end.

Definition setLine (line : nat) (messages : list Message)
    (this : DocumentDecoration) (w : World) : DocumentDecoration * World :=
  let '(decorationManager, w1) := fromDocument (document this) w in
  let decorationManager1 :=
    if flushed this then decorationManager else flushLayers decorationManager in
  let '(decorationManager2, win2) :=
    storeMessages line 0 messages decorationManager1 (window w1) in
  (render {| document := document this; editors := editors this;
             flushed := true; renderScheduled := renderScheduled this |},
   {| documents := <[document this := decorationManager2]> (documents w1);
      window := win2 |}).

Definition withoutLine (line : nat) (l : DocumentDecorationLayer) : DocumentDecorationLayer :=
  {| lines := sa_delete (lines l) line; type := type l |}.

Definition clearLine (line : nat) (this : DocumentDecoration) (w : World)
    : DocumentDecoration * World :=
  let '(m, w1) := fromDocument (document this) w in
  (render this,
   {| documents := <[document this := {| layers := sa_map (withoutLine line) (layers m) |}]>
                     (documents w1);
      window := window w1 |}).

(** [a.push(x)] *)
Definition push {A} (a : list A) (x : A) : list A := (a ++ [x])%list.

Definition mkMessage (text : string) (styleDefault styleDark : option RenderOptions) : Message :=
  {| message := text; styleDefault := styleDefault; styleDark := styleDark |}.

Definition setCheckingMessage (line : nat) (this : DocumentDecoration) (w : World)
    : DocumentDecoration * World :=
  setLine line [mkMessage Icons.CHECKING None None] this w.

(** Modelled from the spec: [PackageRelated] (./Diagnostic) is not among
    the sources. Its accessors are asynchronous queries of the registry and
    of the installed packages; each is taken as the value it resolves to. A
    version that is not known resolves to no value. *)
Record PackageRelated := {
  getVersionLatest : option string;
  getVersionInstalled : option string;
  isVersionMaxed : bool;
  isVersionLatestAlreadyInstalled : bool;
  isVersionMajorUpdate : bool;
}.

(** An array is truthy, [null] is not. *)
Definition is_Some_b {A} (v : option A) : bool :=
  match v with
  | Some _ => true
  | None => false
  end.

(** JavaScript truthiness of a value of type [string | undefined]: the
    empty string is falsy as well. *)
Definition truthy (v : option string) : bool :=
  match v with
  | Some s => bool_decide (s ≠ "")
  | None => false
  end.

Section update_message.

(** [l10n.t] of the host and [prerelease] of the semver library: the
    translation of a label, and the pre-release components of a version
    string ([null] when it has none or does not parse). *)
Context (l10n_t : string → string) (prerelease : string → option (list string)).

Definition pendingMessages : list Message :=
  [ mkMessage Icons.PENDING (Some ThemeLight.ICON_AVAILABLE) (Some ThemeDark.ICON_AVAILABLE);
    mkMessage (l10n_t "Install pending") None None ].

Definition setUpdateMessage (line : nat) (packageInfo : PackageRelated)
    (this : DocumentDecoration) (w : World) : DocumentDecoration * World :=
  match getVersionLatest packageInfo with
  | None => (this, w)
  | Some versionLatest =>
      if negb (truthy (Some versionLatest)) then (this, w) else
      let packageVersionInstalled := getVersionInstalled packageInfo in
      if negb (truthy packageVersionInstalled) && isVersionMaxed packageInfo
      then setLine line pendingMessages this w
      else
        let updateDetails :=
          [ mkMessage Icons.UPDATABLE
              (Some ThemeLight.ICON_UPDATABLE) (Some ThemeDark.ICON_UPDATABLE);
            mkMessage
              (if truthy packageVersionInstalled
               then l10n_t "Update available:"
               else l10n_t "Latest version:")
              (Some ThemeLight.LABEL_UPDATABLE) (Some ThemeDark.LABEL_UPDATABLE);
            mkMessage versionLatest
              (Some ThemeLight.LABEL_VERSION) (Some ThemeDark.LABEL_VERSION) ] in
        let updateDetails :=
          if negb (truthy packageVersionInstalled)
          then push updateDetails
                 (mkMessage ("(" +:+ l10n_t "install pending" +:+ ")")
                    (Some ThemeLight.LABEL_PENDING) (Some ThemeDark.LABEL_PENDING))
          else if isVersionLatestAlreadyInstalled packageInfo
          then push updateDetails
                 (mkMessage ("(" +:+ l10n_t "already installed, just formalization" +:+ ")")
                    (Some ThemeLight.LABEL_FORMALIZATION) (Some ThemeDark.LABEL_FORMALIZATION))
          else updateDetails in
        let updateDetails :=
          if isVersionMajorUpdate packageInfo
          then push updateDetails
                 (mkMessage ("(" +:+ l10n_t "attention: major update!" +:+ ")")
                    (Some ThemeLight.LABEL_MAJOR) (Some ThemeDark.LABEL_MAJOR))
          else updateDetails in
        let updateDetails :=
          if is_Some_b (prerelease versionLatest)
          then push updateDetails
                 (mkMessage ("<" +:+ l10n_t "pre-release" +:+ ">")
                    (Some ThemeLight.LABEL_PRERELEASE) (Some ThemeDark.LABEL_PRERELEASE))
          else updateDetails in
        setLine line updateDetails this w
  end.

End update_message.

(** ** What is read off a state *)

Definition managerLine (m : DocumentDecorationManager) (layer line : nat)
    : option DecorationOptions :=
  sa_get (layers m) layer ≫= λ l, sa_get (lines l) line.

Definition layerAt (w : World) (doc layer : nat) : option DocumentDecorationLayer :=
  documents w !! doc ≫= λ m, sa_get (layers m) layer.

Definition lineAt (w : World) (doc layer line : nat) : option DecorationOptions :=
  documents w !! doc ≫= λ m, managerLine m layer line.

Definition textAt (w : World) (doc layer line : nat) : option string :=
  lineAt w doc layer line ≫= λ d, contentText (renderAfter d).

(** The texts shown on a line, one per layer in layer order; [None] where
    the layer is a hole or has nothing for the line. *)
Definition lineTexts (w : World) (doc line : nat) : list (option string) :=
  match documents w !! doc with
  | Some m => (λ j, textAt w doc j line) <$> seq 0 (length (layers m))
  | None => []
  end.

(** The calls that clear one layer on the editors showing [doc], and the
    calls that clear every layer of [doc], in the order [flushDocument]
    makes them. *)
Definition clearCallsFor (doc : nat) (shown : list TextEditor)
    (l : DocumentDecorationLayer) : list HostCall :=
  (λ e, SetDecorations (editor_id e) (type l) [])
    <$> filter (λ e, editor_document e = doc) shown.

Definition clearCalls (doc : nat) (w : World) : list HostCall :=
  match documents w !! doc with
  | Some m => sa_values (layers m) ≫= clearCallsFor doc (visibleTextEditors (window w))
  | None => []
  end.

(** ** Sample runs *)

Definition emptyWorld : World :=
  {| documents := ∅;
     window := {| visibleTextEditors := [ {| editor_id := 0; editor_document := 7 |};
                                          {| editor_id := 1; editor_document := 8 |} ];
                  decorationTypes := 0; calls := [] |} |}.

(** No translation bundle is loaded: [l10n.t] returns its argument. *)
Definition l10n_none (s : string) : string := s.

(** What semver answers on the versions of the sample runs. *)
Definition prerelease_sample (v : string) : option (list string) :=
  if decide (v = "2.0.0-beta.1") then Some ["beta"; "1"] else None.

Definition bar : PackageRelated :=
  {| getVersionLatest := Some "2.0.0-beta.1"; getVersionInstalled := Some "1.0.0";
     isVersionMaxed := false; isVersionLatestAlreadyInstalled := false;
     isVersionMajorUpdate := true |}.

Definition baz : PackageRelated :=
  {| getVersionLatest := Some "2.0.0-beta.1"; getVersionInstalled := None;
     isVersionMaxed := false; isVersionLatestAlreadyInstalled := false;
     isVersionMajorUpdate := true |}.

Definition foo : PackageRelated :=
  {| getVersionLatest := Some "1.0.0"; getVersionInstalled := None;
     isVersionMaxed := true; isVersionLatestAlreadyInstalled := false;
     isVersionMajorUpdate := false |}.

Definition unknown : PackageRelated :=
  {| getVersionLatest := None; getVersionInstalled := None;
     isVersionMaxed := false; isVersionLatestAlreadyInstalled := false;
     isVersionMajorUpdate := false |}.

(** A scan of document 7 that has just started. *)
Definition scan : DocumentDecoration := newDocumentDecoration 7 emptyWorld.

(** Line 3 is being checked. *)
Definition checking : DocumentDecoration * World := setCheckingMessage 3 scan emptyWorld.

(** Line 3 shows the update of [baz]. *)
Definition shownBaz : DocumentDecoration * World :=
  setUpdateMessage l10n_none prerelease_sample 3 baz scan emptyWorld.

(** Line 4 is being checked as well. *)
Definition twoLines : DocumentDecoration * World :=
  setCheckingMessage 4 shownBaz.1 shownBaz.2.

(** Line 1 of document 8 is being checked while document 7 shows [baz]. *)
Definition twoDocuments : DocumentDecoration * World :=
  setCheckingMessage 1 (newDocumentDecoration 8 shownBaz.2) shownBaz.2.

(** The declared version is the installed one and the latest one. *)
Definition leftPad : PackageRelated :=
  {| getVersionLatest := Some "1.2.0"; getVersionInstalled := Some "1.2.0";
     isVersionMaxed := true; isVersionLatestAlreadyInstalled := true;
     isVersionMajorUpdate := false |}.

(** ** What the host shows *)

(** [setDecorations] replaces what an editor shows for a decoration type:
    the options of the last call for the editor and the type are shown. *)
Definition paintStep (e ty : nat) (shown : list DecorationOptions) (c : HostCall)
    : list DecorationOptions :=
  match c with
  | SetDecorations e' ty' options => if decide (e' = e ∧ ty' = ty) then options else shown
  end.

Definition painted (cs : list HostCall) (e ty : nat) : list DecorationOptions :=
  foldl (paintStep e ty) [] cs.

(** The calls of one run of the render callback, in the order it makes
    them. *)
Definition paintCallsFor (this : DocumentDecoration) (l : DocumentDecorationLayer)
    : list HostCall :=
  (λ e, SetDecorations (editor_id e) (type l) (sa_values (lines l))) <$> editors this.

Definition paintCalls (this : DocumentDecoration) (w : World) : list HostCall :=
  match documents w !! document this with
  | Some m => sa_values (layers m) ≫= paintCallsFor this
  | None => []
  end.

(** How many qualifiers follow the version: one when the package is not
    installed or the latest version is installed already, one for a major
    update, one for a pre-release. *)
Definition qualifierCount (prerelease : string → option (list string))
    (packageInfo : PackageRelated) (versionLatest : string) : nat :=
  ((if negb (truthy (getVersionInstalled packageInfo))
       || isVersionLatestAlreadyInstalled packageInfo then 1 else 0) +
   (if isVersionMajorUpdate packageInfo then 1 else 0) +
   (if is_Some_b (prerelease versionLatest) then 1 else 0))%nat.

(** ** What the layers keep *)

(** Every layer has a decoration type that the host has created, and no
    two layers, of one document or of two, have the same. *)
Definition typesOK (w : World) : Prop :=
  (∀ d j l, layerAt w d j = Some l → type l < decorationTypes (window w)) ∧
  (∀ d j l d' j' l',
     layerAt w d j = Some l → layerAt w d' j' = Some l' →
     type l = type l' → d = d' ∧ j = j').

(** The entry of a line sits at the end of that line. *)
Definition endOfLine (line : nat) : Range :=
  {| range_start := {| pos_line := line; pos_character := 4096 |};
     range_end := {| pos_line := line; pos_character := 4096 |} |}.

Definition linesInPlace (w : World) : Prop :=
  ∀ d j n o, lineAt w d j n = Some o → range o = endOfLine n.

(** ** Clients *)

(** [DocumentDecorationManager.fromDocument(doc).getLayer(layer)] and
    [DocumentDecorationManager.fromDocument(doc).flushLayers()], as a
    client of the public methods writes them. *)
Definition getLayerOf (doc layer : nat) (w : World) : World :=
  let '(m, w1) := fromDocument doc w in
  let '(_, m1, win1) := getLayer layer m (window w1) in
  {| documents := <[doc := m1]> (documents w1); window := win1 |}.

Definition flushLayersOf (doc : nat) (w : World) : World :=
  let '(m, w1) := fromDocument doc w in
  {| documents := <[doc := flushLayers m]> (documents w1); window := window w1 |}.

(** The host opens and closes editors. *)
Definition showEditors (shown : list TextEditor) (w : World) : World :=
  {| documents := documents w;
     window := {| visibleTextEditors := shown;
                  decorationTypes := decorationTypes (window w);
                  calls := calls (window w) |} |}.

(** One call of a method of the two classes, on any instance and with any
    arguments, or one change of the visible editors. [setLine] stands for
    [setCheckingMessage] and [setUpdateMessage] as well, which are calls
    of it. *)
Inductive step : World → World → Prop :=
| step_fromDocument doc w : step w (fromDocument doc w).2
| step_getLayer doc layer w : step w (getLayerOf doc layer w)
| step_flushLayers doc w : step w (flushLayersOf doc w)
| step_flushDocument doc w : step w (flushDocument doc w)
| step_setLine line messages this w : step w (setLine line messages this w).2
| step_clearLine line this w : step w (clearLine line this w).2
| step_render this w : step w (renderCallback this w).2
| step_showEditors shown w : step w (showEditors shown w).

(** The states that the extension can be in: no document is known when
    it starts. *)
Definition reachable (w : World) : Prop :=
  ∃ w0, documents w0 = ∅ ∧ rtc step w0 w.

(** The decoration types of the layers of a manager, slot by slot. *)
Definition typeAt (m : DocumentDecorationManager) (j : nat) : option nat :=
  type <$> sa_get (layers m) j.

(** [f'] has the layers of [f] with their types, and its other layers
    have types that were created after the first [n], each in one slot
    only. *)
Definition extends (f f' : nat → option nat) (n n' : nat) : Prop :=
  (n ≤ n')%nat ∧
  (∀ j t, f j = Some t → f' j = Some t) ∧
  (∀ j t, f' j = Some t →
     f j = Some t ∨
     (f j = None ∧ (n ≤ t < n')%nat ∧ ∀ j', f' j' = Some t → j' = j)).

Definition below (f : nat → option nat) (n : nat) : Prop :=
  ∀ j t, f j = Some t → t < n.

(** ** Arrays with holes: reading after writing *)

Local Close Scope string_scope.

Arguments sa_get {A} a i : simpl never.
Arguments sa_set {A} a i x : simpl never.
Arguments sa_delete {A} a i : simpl never.
Arguments sa_map {A B} f a : simpl never.

Section sparse_arrays.

Context {A : Type}.
Implicit Types (a : SparseArray A) (i j : nat) (x : A).

Lemma sa_get_nil i : sa_get ([] : SparseArray A) i = None.
Proof. by destruct i. Qed.

Lemma sa_get_set_eq a i x : sa_get (sa_set a i x) i = Some x.
Proof.
  unfold sa_get, sa_set. case_decide as Hi.
  - by rewrite list_lookup_insert_eq.
  - rewrite lookup_app_r by lia.
    rewrite lookup_app_r by (rewrite length_replicate; lia).
    rewrite length_replicate.
    by replace (i - length a - (i - length a)) with 0 by lia.
Qed.

Lemma sa_get_set_ne a i j x : i ≠ j → sa_get (sa_set a i x) j = sa_get a j.
Proof.
  intros Hij. unfold sa_get, sa_set. case_decide as Hi.
  - by rewrite list_lookup_insert_ne.
  - destruct (decide (j < length a)) as [Hj | Hj].
    + by rewrite lookup_app_l.
    + rewrite (lookup_ge_None_2 a j) by lia.
      rewrite lookup_app_r by lia.
      destruct (decide (j - length a < i - length a)) as [Hlt | Hge].
      * rewrite lookup_app_l by (by rewrite length_replicate).
        by rewrite lookup_replicate_2.
      * rewrite lookup_app_r by (rewrite length_replicate; lia).
        rewrite length_replicate.
        rewrite lookup_ge_None_2; [done | simpl; lia].
Qed.

Lemma sa_get_set a i j x :
  sa_get (sa_set a i x) j = if decide (i = j) then Some x else sa_get a j.
Proof.
  case_decide as Hij.
  - subst j. apply sa_get_set_eq.
  - by apply sa_get_set_ne.
Qed.

Lemma sa_get_delete a i j :
  sa_get (sa_delete a i) j = if decide (i = j) then None else sa_get a j.
Proof.
  unfold sa_get, sa_delete. case_decide as Hij.
  - subst j. destruct (decide (i < length a)) as [Hi | Hi].
    + by rewrite list_lookup_insert_eq.
    + rewrite list_insert_ge by lia. by rewrite lookup_ge_None_2 by lia.
  - by rewrite list_lookup_insert_ne.
Qed.

Lemma sa_get_map {B} (f : A → B) a i : sa_get (sa_map f a) i = f <$> sa_get a i.
Proof.
  unfold sa_get, sa_map. rewrite list_lookup_fmap.
  by destruct (a !! i) as [[y|]|].
Qed.

Lemma elem_of_sa_values a x : x ∈ sa_values a ↔ ∃ i, sa_get a i = Some x.
Proof.
  unfold sa_values, sa_get. rewrite list_elem_of_omap. split.
  - intros (o & Ho & Hx). simpl in Hx. subst o.
    apply list_elem_of_lookup in Ho as [i Hi]. exists i. by rewrite Hi.
  - intros [i Hi]. destruct (a !! i) as [[y|]|] eqn:Hl; try done.
    exists (Some y). split; [| by simplify_eq].
    apply list_elem_of_lookup. eauto.
Qed.

End sparse_arrays.

(** ** Layers of one manager *)

Lemma getLayer_cases k m win :
  (∃ l, sa_get (layers m) k = Some l ∧ getLayer k m win = (l, m, win)) ∨
  (sa_get (layers m) k = None ∧
   getLayer k m win =
     ({| lines := []; type := decorationTypes win |},
      {| layers := sa_set (layers m) k {| lines := []; type := decorationTypes win |} |},
      {| visibleTextEditors := visibleTextEditors win;
         decorationTypes := S (decorationTypes win);
         calls := calls win |})).
Proof.
  unfold getLayer. destruct (sa_get (layers m) k) as [l|]; [left | right]; eauto.
Qed.

Lemma getLayer_registered k m win l m1 win1 :
  getLayer k m win = (l, m1, win1) → sa_get (layers m1) k = Some l.
Proof.
  destruct (getLayer_cases k m win) as [(l0 & Hl & ->) | [Hn ->]];
    intros [= <- <- <-]; [done |].
  apply sa_get_set_eq.
Qed.

Lemma getLayer_elsewhere k m win l m1 win1 j :
  getLayer k m win = (l, m1, win1) → j ≠ k →
  sa_get (layers m1) j = sa_get (layers m) j.
Proof.
  destruct (getLayer_cases k m win) as [(l0 & Hl & ->) | [Hn ->]];
    intros [= <- <- <-] Hj; [done |].
  by apply sa_get_set_ne.
Qed.

Lemma getLayer_lines k m win l m1 win1 line :
  getLayer k m win = (l, m1, win1) → sa_get (lines l) line = managerLine m k line.
Proof.
  unfold managerLine.
  destruct (getLayer_cases k m win) as [(l0 & Hl & ->) | [Hn ->]];
    intros [= <- <- <-]; [by rewrite Hl |].
  rewrite Hn. simpl. apply sa_get_nil.
Qed.

Lemma setLayerLine_line k line d l m j n :
  managerLine (setLayerLine k line d l m) j n =
    if decide (k = j) then
      if decide (line = n) then Some d else sa_get (lines l) n
    else managerLine m j n.
Proof.
  unfold managerLine, setLayerLine. simpl. rewrite sa_get_set.
  case_decide; [simpl; apply sa_get_set | done].
Qed.

Lemma storeMessages_line line messages : ∀ k m win j n,
  managerLine (storeMessages line k messages m win).1 j n =
    if decide (k ≤ j < k + length messages ∧ n = line)
    then decorationOf line j <$> messages !! (j - k)
    else managerLine m j n.
Proof.
  induction messages as [| message rest IH]; intros k m win j n; simpl.
  { case_decide; [lia | done]. }
  destruct (getLayer k m win) as [[l m1] win1] eqn:Hget.
  rewrite IH, setLayerLine_line.
  rewrite (getLayer_lines _ _ _ _ _ _ n Hget).
  destruct (decide (k = j)) as [-> | Hkj].
  - rewrite decide_False by lia.
    replace (j - j) with 0 by lia. simpl.
    destruct (decide (line = n)) as [-> | Hn].
    + by rewrite decide_True by lia.
    + rewrite decide_False; [done | by intros [_ ->]].
  - assert (managerLine m1 j n = managerLine m j n) as ->.
    { unfold managerLine. by rewrite (getLayer_elsewhere _ _ _ _ _ _ j Hget). }
    destruct (decide (S k ≤ j < S k + length rest ∧ n = line)) as [[Hr ->] | Hr].
    + rewrite decide_True by lia.
      by replace (j - k) with (S (j - S k)) by lia.
    + rewrite decide_False; [done | lia].
Qed.

Lemma flushLayers_line m j n : managerLine (flushLayers m) j n = None.
Proof.
  unfold managerLine, flushLayers. simpl. rewrite sa_get_map.
  destruct (sa_get (layers m) j); simpl; [apply sa_get_nil | done].
Qed.

(** ** The table of documents *)

Lemma fromDocument_cases doc w :
  (∃ m, documents w !! doc = Some m ∧ fromDocument doc w = (m, w)) ∨
  (documents w !! doc = None ∧
   fromDocument doc w =
     ({| layers := [] |},
      {| documents := <[doc := {| layers := [] |}]> (documents w); window := window w |})).
Proof.
  unfold fromDocument. destruct (documents w !! doc) as [m|]; [left | right]; eauto.
Qed.

Lemma fromDocument_line doc w m w1 j n :
  fromDocument doc w = (m, w1) → managerLine m j n = lineAt w doc j n.
Proof.
  unfold lineAt.
  destruct (fromDocument_cases doc w) as [(m0 & Hm & ->) | [Hn ->]];
    intros [= <- <-]; [by rewrite Hm |].
  rewrite Hn. unfold managerLine. cbn [layers]. by rewrite sa_get_nil.
Qed.

(** ** setLine and clearLine on the state *)

Lemma setLine_flushed line messages this w :
  flushed (setLine line messages this w).1 = true.
Proof.
  unfold setLine. destruct (fromDocument _ _) as [m w1].
  by destruct (storeMessages _ _ _ _ _).
Qed.

Lemma setLine_lineAt line messages this w j n :
  lineAt (setLine line messages this w).2 (document this) j n =
    if decide (j < length messages ∧ n = line)
    then decorationOf line j <$> messages !! j
    else if flushed this then lineAt w (document this) j n else None.
Proof.
  unfold setLine. destruct (fromDocument _ _) as [m w1] eqn:Hfrom.
  set (m1 := if flushed this then m else flushLayers m).
  pose proof (storeMessages_line line messages 0 m1 (window w1) j n) as Hstore.
  destruct (storeMessages _ _ _ _ _) as [m2 win2]. simpl in *.
  unfold lineAt at 1. simpl. rewrite lookup_insert_eq. simpl.
  rewrite Hstore, Nat.sub_0_r.
  assert (managerLine m1 j n = if flushed this then lineAt w (document this) j n else None)
    as ->.
  { subst m1. destruct (flushed this).
    - by apply fromDocument_line with w1.
    - apply flushLayers_line. }
  destruct (decide (j < length messages ∧ n = line)) as [H | H].
  - rewrite decide_True; [done | lia].
  - rewrite decide_False; [done | lia].
Qed.

Lemma clearLine_lineAt line this w j n :
  lineAt (clearLine line this w).2 (document this) j n =
    if decide (line = n) then None else lineAt w (document this) j n.
Proof.
  unfold clearLine. destruct (fromDocument _ _) as [m w1] eqn:Hfrom.
  unfold lineAt at 1. simpl. rewrite lookup_insert_eq. simpl.
  rewrite <- (fromDocument_line _ _ _ _ j n Hfrom).
  unfold managerLine. cbn [layers]. rewrite sa_get_map.
  destruct (sa_get (layers m) j) as [l|]; simpl; [apply sa_get_delete |].
  by case_decide.
Qed.

(** ** The layer model *)

(** C9. [getLayer i] returns the layer registered at slot [i] afterwards;
    no other slot changes; when slot [i] held a layer it is returned and
    neither the manager nor the host changes, and when it held none the
    layer returned is a fresh empty one with a newly created decoration
    type; asking again returns the same layer and changes nothing. *)
Theorem getLayer_lazy_sparse_idempotent (i : nat) (m : DocumentDecorationManager)
    (win : Window) :
  let '(l, m1, win1) := getLayer i m win in
  sa_get (layers m1) i = Some l ∧
  (∀ j, j ≠ i → sa_get (layers m1) j = sa_get (layers m) j) ∧
  match sa_get (layers m) i with
  | Some l0 => l = l0 ∧ m1 = m ∧ win1 = win
  | None =>
      l = {| lines := []; type := decorationTypes win |} ∧
      decorationTypes win1 = S (decorationTypes win)
  end ∧
  getLayer i m1 win1 = (l, m1, win1).
Proof.
  destruct (getLayer i m win) as [[l m1] win1] eqn:Hget.
  split; [by eapply getLayer_registered |].
  split; [intros j Hj; by eapply getLayer_elsewhere |].
  pose proof (getLayer_registered _ _ _ _ _ _ Hget) as Hreg.
  split.
  - destruct (getLayer_cases i m win) as [(l0 & Hl & Heq) | [Hn Heq]];
      rewrite Heq in Hget; injection Hget as <- <- <-.
    + by rewrite Hl.
    + by rewrite Hn.
  - unfold getLayer. by rewrite Hreg.
Qed.

(** C6. [flushLayers] keeps the array of layers as it is, slot by slot:
    a hole stays a hole, and a layer stays in its slot with the same
    decoration type and an empty [lines]. *)
Theorem flushLayers_empties_lines_keeps_layers (m : DocumentDecorationManager) (i : nat) :
  length (layers (flushLayers m)) = length (layers m) ∧
  sa_get (layers (flushLayers m)) i =
    (λ l, {| lines := []; type := type l |}) <$> sa_get (layers m) i.
Proof.
  unfold flushLayers. simpl. split.
  - unfold sa_map. by rewrite length_fmap.
  - by rewrite sa_get_map.
Qed.

(** C5. A new [DocumentDecoration] has not flushed. [setLine] leaves the
    instance flushed, so only the first call on an instance flushes. After
    [setLine line messages] every layer [j < length messages] holds at
    [line] the decoration built from message [j]; every other entry of the
    document is empty when the call was the first (all layers were
    flushed before the messages were stored) and is what it was
    otherwise. *)
Theorem setLine_flushes_first_then_stores (line : nat) (messages : list Message)
    (this : DocumentDecoration) (w : World) :
  (∀ doc w0, flushed (newDocumentDecoration doc w0) = false) ∧
  flushed (setLine line messages this w).1 = true ∧
  ∀ j n,
    lineAt (setLine line messages this w).2 (document this) j n =
      if decide (j < length messages ∧ n = line)
      then decorationOf line j <$> messages !! j
      else if flushed this then lineAt w (document this) j n else None.
Proof.
  split; [done |]. split; [apply setLine_flushed |].
  intros j n. apply setLine_lineAt.
Qed.

(** C10. Once the instance has flushed, [setLine line messages] leaves the
    entry of [line] in every layer [j ≥ length messages] as it was. *)
Theorem setLine_keeps_higher_slots (line : nat) (messages : list Message)
    (this : DocumentDecoration) (w : World) (j : nat) :
  flushed this = true →
  length messages ≤ j →
  lineAt (setLine line messages this w).2 (document this) j line =
    lineAt w (document this) j line.
Proof.
  intros Hflushed Hj. rewrite setLine_lineAt, Hflushed.
  rewrite decide_False; [done | lia].
Qed.

(** C7. [clearLine n] leaves no entry for line [n] in any layer of the
    document, and leaves the entry of every other line in every layer as
    it was. *)
Theorem clearLine_removes_only_that_line (n : nat) (this : DocumentDecoration) (w : World) :
  (∀ j, lineAt (clearLine n this w).2 (document this) j n = None) ∧
  (∀ j m, m ≠ n →
     lineAt (clearLine n this w).2 (document this) j m = lineAt w (document this) j m).
Proof.
  split.
  - intros j. rewrite clearLine_lineAt. by rewrite decide_True.
  - intros j m Hm. rewrite clearLine_lineAt. by rewrite decide_False.
Qed.

(** ** Closing a document *)

Lemma clearOnEditors_fold doc ty : ∀ es win,
  let win' := foldl (λ win editor,
                       if decide (editor_document editor = doc)
                       then setDecorations editor ty [] win
                       else win) win es in
  visibleTextEditors win' = visibleTextEditors win ∧
  decorationTypes win' = decorationTypes win ∧
  calls win' = calls win ++
    ((λ e, SetDecorations (editor_id e) ty []) <$> filter (λ e, editor_document e = doc) es).
Proof.
  induction es as [| e es IH]; intros win; simpl.
  { by rewrite app_nil_r. }
  destruct (IH (if decide (editor_document e = doc)
                then setDecorations e ty [] win else win)) as (Hv & Ht & Hc).
  rewrite Hv, Ht, Hc. rewrite filter_cons.
  destruct (decide (editor_document e = doc)); simpl; [| done].
  by rewrite <- app_assoc.
Qed.

Lemma clearOnEditors_calls doc win l :
  visibleTextEditors (clearOnEditors doc win l) = visibleTextEditors win ∧
  decorationTypes (clearOnEditors doc win l) = decorationTypes win ∧
  calls (clearOnEditors doc win l) =
    calls win ++ clearCallsFor doc (visibleTextEditors win) l.
Proof. apply (clearOnEditors_fold doc (type l) (visibleTextEditors win) win). Qed.

Lemma clearOnEditors_layers doc : ∀ ls win,
  visibleTextEditors (foldl (clearOnEditors doc) win ls) = visibleTextEditors win ∧
  calls (foldl (clearOnEditors doc) win ls) =
    calls win ++ (ls ≫= clearCallsFor doc (visibleTextEditors win)).
Proof.
  induction ls as [| l ls IH]; intros win; simpl.
  { by rewrite app_nil_r. }
  destruct (clearOnEditors_calls doc win l) as (Hv & _ & Hc).
  destruct (IH (clearOnEditors doc win l)) as [Hv' Hc'].
  rewrite Hv', Hc', Hv, Hc. by rewrite <- app_assoc.
Qed.

Lemma flushDocument_calls doc w :
  calls (window (flushDocument doc w)) = calls (window w) ++ clearCalls doc w.
Proof.
  unfold flushDocument, clearCalls.
  destruct (fromDocument_cases doc w) as [(m & Hm & ->) | [Hn ->]].
  - rewrite Hm. simpl. apply clearOnEditors_layers.
  - rewrite Hn. simpl. by rewrite app_nil_r.
Qed.

Lemma flushDocument_forgets doc w : documents (flushDocument doc w) !! doc = None.
Proof.
  unfold flushDocument. destruct (fromDocument doc w) as [m w1].
  simpl. apply lookup_delete_eq.
Qed.

(** C8. [flushDocument doc] adds to the calls the host has received one
    [setDecorations(layer.type, [])] for every layer of the document and
    every visible editor that shows it, and nothing else; afterwards the
    table has no entry for the document, and [fromDocument] answers with a
    manager without layers. *)
Theorem flushDocument_clears_views_and_forgets (doc : nat) (w : World) :
  calls (window (flushDocument doc w)) = calls (window w) ++ clearCalls doc w ∧
  (∀ j l e,
     layerAt w doc j = Some l →
     e ∈ visibleTextEditors (window w) →
     editor_document e = doc →
     SetDecorations (editor_id e) (type l) [] ∈ clearCalls doc w) ∧
  documents (flushDocument doc w) !! doc = None ∧
  (fromDocument doc (flushDocument doc w)).1 = {| layers := [] |}.
Proof.
  split; [apply flushDocument_calls |]. split; [| split].
  - intros j l e Hl He Hdoc. unfold layerAt, clearCalls in *.
    destruct (documents w !! doc) as [m|]; [simpl in Hl | done].
    apply list_elem_of_bind. exists l. split.
    + unfold clearCallsFor.
      apply (list_elem_of_fmap_2 (λ e, SetDecorations (editor_id e) (type l) [])).
      by apply list_elem_of_filter.
    + apply elem_of_sa_values. eauto.
  - apply flushDocument_forgets.
  - unfold fromDocument. by rewrite flushDocument_forgets.
Qed.

(** ** The message of a resolved dependency *)

Lemma setLine_textAt line messages this w j m :
  messages !! j = Some m →
  styleDefault m ≫= contentText = None →
  textAt (setLine line messages this w).2 (document this) j line = Some (message m).
Proof.
  intros Hj Hstyle. unfold textAt. rewrite setLine_lineAt.
  rewrite decide_True by (split; [by eapply lookup_lt_Some | done]).
  rewrite Hj. simpl. unfold decorationOf. cbn [renderAfter].
  destruct (styleDefault m) as [s|]; simpl in *; [rewrite Hstyle |];
    by case_decide.
Qed.

Lemma setLine_unwritten line messages this w j :
  length messages ≤ j →
  lineAt (setLine line messages this w).2 (document this) j line =
    if flushed this then lineAt w (document this) j line else None.
Proof.
  intros Hj. rewrite setLine_lineAt. rewrite decide_False; [done | lia].
Qed.

(** Reads the text that [setLine] left in a layer off the message list. *)
Ltac shown_text :=
  erewrite setLine_textAt; [| reflexivity | reflexivity]; reflexivity.

Local Open Scope string_scope.

Section update_message_facts.

Context (l10n_t : string → string) (prerelease : string → option (list string)).

Local Abbreviation setUpdate := (setUpdateMessage l10n_t prerelease).

Lemma truthy_Some v : truthy v = true → ∃ s, v = Some s.
Proof. destruct v; [eauto | done]. Qed.

(** The list that the second branch hands to [setLine] starts with the
    icon, the label and the version. *)
Lemma setUpdateMessage_details line packageInfo this w versionLatest :
  getVersionLatest packageInfo = Some versionLatest →
  truthy (Some versionLatest) = true →
  negb (truthy (getVersionInstalled packageInfo)) && isVersionMaxed packageInfo = false →
  ∃ qualifiers,
    setUpdate line packageInfo this w =
      setLine line
        (mkMessage Icons.UPDATABLE
           (Some ThemeLight.ICON_UPDATABLE) (Some ThemeDark.ICON_UPDATABLE)
         :: mkMessage
              (if truthy (getVersionInstalled packageInfo)
               then l10n_t "Update available:" else l10n_t "Latest version:")
              (Some ThemeLight.LABEL_UPDATABLE) (Some ThemeDark.LABEL_UPDATABLE)
         :: mkMessage versionLatest
              (Some ThemeLight.LABEL_VERSION) (Some ThemeDark.LABEL_VERSION)
         :: qualifiers) this w.
Proof.
  intros Hlatest Htruthy Hbranch. unfold setUpdateMessage.
  rewrite Hlatest, Htruthy, Hbranch. cbn [negb].
  destruct (negb (truthy (getVersionInstalled packageInfo)));
    destruct (isVersionLatestAlreadyInstalled packageInfo);
    destruct (isVersionMajorUpdate packageInfo);
    destruct (is_Some_b (prerelease versionLatest));
    cbn [push app]; eauto.
Qed.

(** C1, as the code has it. When the latest version is not known,
    [setUpdateMessage] returns at once: the instance and the state, and so
    every entry of every layer, are what they were. *)
Theorem setUpdateMessage_unknown_latest_is_identity (line : nat)
    (packageInfo : PackageRelated) (this : DocumentDecoration) (w : World) :
  truthy (getVersionLatest packageInfo) = false →
  setUpdate line packageInfo this w = (this, w).
Proof.
  intros Hlatest. unfold setUpdateMessage.
  destruct (getVersionLatest packageInfo) as [versionLatest|]; [| done].
  by rewrite Hlatest.
Qed.

(** C3. With a latest version, no installed version and a declared
    version that is already the maximum, [setUpdateMessage] is [setLine]
    on two messages: layer 0 shows the pending icon and layer 1 the label
    "Install pending" on the line, and no layer from 2 on is written. *)
Theorem setUpdateMessage_pending_only (line : nat) (packageInfo : PackageRelated)
    (this : DocumentDecoration) (w : World) :
  truthy (getVersionLatest packageInfo) = true →
  truthy (getVersionInstalled packageInfo) = false →
  isVersionMaxed packageInfo = true →
  let after := setUpdate line packageInfo this w in
  after =
    setLine line
      [ mkMessage Icons.PENDING (Some ThemeLight.ICON_AVAILABLE) (Some ThemeDark.ICON_AVAILABLE);
        mkMessage (l10n_t "Install pending") None None ] this w ∧
  textAt after.2 (document this) 0 line = Some Icons.PENDING ∧
  textAt after.2 (document this) 1 line = Some (l10n_t "Install pending") ∧
  ∀ j, (2 ≤ j)%nat →
    lineAt after.2 (document this) j line =
      if flushed this then lineAt w (document this) j line else None.
Proof.
  intros Hlatest Hinstalled Hmaxed after.
  assert (after = setLine line (pendingMessages l10n_t) this w) as Hafter.
  { subst after. unfold setUpdateMessage.
    destruct (truthy_Some _ Hlatest) as [versionLatest Hv].
    rewrite Hv in *. by rewrite Hlatest, Hinstalled, Hmaxed. }
  rewrite Hafter. split; [done |].
  split; [shown_text |].
  split; [shown_text |].
  intros j Hj. by apply setLine_unwritten.
Qed.

(** C4. With a latest version and outside the pending-only branch, the
    line shows the updatable icon in layer 0, the label in layer 1
    ("Update available:" with an installed version, "Latest version:"
    without) and the latest version in layer 2. *)
Theorem setUpdateMessage_icon_label_version (line : nat) (packageInfo : PackageRelated)
    (this : DocumentDecoration) (w : World) (versionLatest : string) :
  getVersionLatest packageInfo = Some versionLatest →
  versionLatest ≠ "" →
  negb (truthy (getVersionInstalled packageInfo)) && isVersionMaxed packageInfo = false →
  let after := setUpdate line packageInfo this w in
  textAt after.2 (document this) 0 line = Some Icons.UPDATABLE ∧
  textAt after.2 (document this) 1 line =
    Some (if truthy (getVersionInstalled packageInfo)
          then l10n_t "Update available:" else l10n_t "Latest version:") ∧
  textAt after.2 (document this) 2 line = Some versionLatest.
Proof.
  intros Hlatest Hne Hbranch after.
  destruct (setUpdateMessage_details line packageInfo this w versionLatest)
    as [qualifiers Hdetails]; [done | by apply bool_decide_eq_true | done |].
  subst after. rewrite Hdetails.
  repeat split; shown_text.
Qed.

(** C2, as the code has it. With no installed version, a declared version
    that is not the maximum, a major update and a latest version that is a
    pre-release, the qualifiers after the version are "(install pending)",
    "(attention: major update!)" and "<pre-release>", in layers 3, 4 and 5,
    each label as [l10n.t] gives it, and no layer from 6 on is written. *)
Theorem setUpdateMessage_three_qualifiers (line : nat) (packageInfo : PackageRelated)
    (this : DocumentDecoration) (w : World) (versionLatest : string) :
  getVersionLatest packageInfo = Some versionLatest →
  versionLatest ≠ "" →
  truthy (getVersionInstalled packageInfo) = false →
  isVersionMaxed packageInfo = false →
  isVersionMajorUpdate packageInfo = true →
  is_Some (prerelease versionLatest) →
  let after := setUpdate line packageInfo this w in
  (∃ details,
     after = setLine line details this w ∧
     message <$> drop 3 details =
       [ "(" +:+ l10n_t "install pending" +:+ ")";
         "(" +:+ l10n_t "attention: major update!" +:+ ")";
         "<" +:+ l10n_t "pre-release" +:+ ">" ]) ∧
  textAt after.2 (document this) 3 line = Some ("(" +:+ l10n_t "install pending" +:+ ")") ∧
  textAt after.2 (document this) 4 line =
    Some ("(" +:+ l10n_t "attention: major update!" +:+ ")") ∧
  textAt after.2 (document this) 5 line = Some ("<" +:+ l10n_t "pre-release" +:+ ">") ∧
  ∀ j, (6 ≤ j)%nat →
    lineAt after.2 (document this) j line =
      if flushed this then lineAt w (document this) j line else None.
Proof.
  intros Hlatest Hne Hinstalled Hmaxed Hmajor [pre Hpre] after.
  assert (∃ m0 m1 m2,
    after = setLine line
      [ m0; m1; m2;
        mkMessage ("(" +:+ l10n_t "install pending" +:+ ")")
          (Some ThemeLight.LABEL_PENDING) (Some ThemeDark.LABEL_PENDING);
        mkMessage ("(" +:+ l10n_t "attention: major update!" +:+ ")")
          (Some ThemeLight.LABEL_MAJOR) (Some ThemeDark.LABEL_MAJOR);
        mkMessage ("<" +:+ l10n_t "pre-release" +:+ ">")
          (Some ThemeLight.LABEL_PRERELEASE) (Some ThemeDark.LABEL_PRERELEASE) ] this w)
    as (m0 & m1 & m2 & Hafter).
  { subst after. unfold setUpdateMessage.
    rewrite Hlatest, Hinstalled, Hmaxed, Hmajor, Hpre.
    replace (truthy (Some versionLatest)) with true
      by (symmetry; by apply bool_decide_eq_true).
    cbn [negb andb is_Some_b push app]. eauto. }
  rewrite Hafter. split; [eauto |].
  split; [shown_text |].
  split; [shown_text |].
  split; [shown_text |].
  intros j Hj. by apply setLine_unwritten.
Qed.

End update_message_facts.

(** ** The properties on the sample runs *)

Lemma setUpdateMessage_unknown_latest_is_identity_witness :
  setUpdateMessage l10n_none prerelease_sample 3 unknown checking.1 checking.2 =
    (checking.1, checking.2).
Proof.
  apply (setUpdateMessage_unknown_latest_is_identity
           l10n_none prerelease_sample 3 unknown checking.1 checking.2).
  reflexivity.
Defined.

(** The line is not cleared when the latest version is unknown: the
    checking icon that the scan put on line 3 is still in layer 0. *)
Lemma unknown_latest_leaves_checking_icon :
  getVersionLatest unknown = None ∧
  textAt (setUpdateMessage l10n_none prerelease_sample 3 unknown checking.1 checking.2).2
         7 0 3 = Some Icons.CHECKING ∧
  ¬ (∀ j, lineAt (setUpdateMessage l10n_none prerelease_sample 3 unknown
                    checking.1 checking.2).2 7 j 3 = None).
Proof.
  split; [reflexivity |]. split; [by vm_compute |].
  intros Hcleared. specialize (Hcleared 0). vm_compute in Hcleared. discriminate.
Qed.

Lemma setUpdateMessage_pending_only_witness :
  lineTexts (setUpdateMessage l10n_none prerelease_sample 3 foo scan emptyWorld).2 7 3 =
    [Some "⭳"; Some "Install pending"] ∧
  textAt (setUpdateMessage l10n_none prerelease_sample 3 foo scan emptyWorld).2 7 0 3 =
    Some "⭳" ∧
  textAt (setUpdateMessage l10n_none prerelease_sample 3 foo scan emptyWorld).2 7 1 3 =
    Some "Install pending".
Proof.
  split; [by vm_compute |].
  destruct (setUpdateMessage_pending_only l10n_none prerelease_sample 3 foo scan emptyWorld)
    as (_ & Hicon & Hlabel & _); [reflexivity | reflexivity | reflexivity |].
  split; [exact Hicon | exact Hlabel].
Defined.

Lemma setUpdateMessage_icon_label_version_witness :
  textAt (setUpdateMessage l10n_none prerelease_sample 3 bar scan emptyWorld).2 7 0 3 =
    Some "⚠" ∧
  textAt (setUpdateMessage l10n_none prerelease_sample 3 bar scan emptyWorld).2 7 1 3 =
    Some "Update available:" ∧
  textAt (setUpdateMessage l10n_none prerelease_sample 3 bar scan emptyWorld).2 7 2 3 =
    Some "2.0.0-beta.1".
Proof.
  apply (setUpdateMessage_icon_label_version
           l10n_none prerelease_sample 3 bar scan emptyWorld "2.0.0-beta.1");
    [reflexivity | discriminate | reflexivity].
Defined.

(** The third qualifier is not "(pre-release)". *)
Lemma prerelease_qualifier_is_in_angle_brackets :
  getVersionInstalled baz = None ∧
  isVersionMaxed baz = false ∧
  isVersionMajorUpdate baz = true ∧
  (getVersionLatest baz ≫= prerelease_sample) = Some ["beta"; "1"] ∧
  drop 3 (lineTexts shownBaz.2 7 3) ≠
    [Some "(install pending)"; Some "(attention: major update!)"; Some "(pre-release)"].
Proof.
  repeat split; try reflexivity. vm_compute. discriminate.
Qed.

Lemma setUpdateMessage_three_qualifiers_witness :
  textAt shownBaz.2 7 3 3 = Some "(install pending)" ∧
  textAt shownBaz.2 7 4 3 = Some "(attention: major update!)" ∧
  textAt shownBaz.2 7 5 3 = Some "<pre-release>".
Proof.
  destruct (setUpdateMessage_three_qualifiers
              l10n_none prerelease_sample 3 baz scan emptyWorld "2.0.0-beta.1")
    as (_ & Hpending & Hmajor & Hpre & _);
    [reflexivity | discriminate | reflexivity | reflexivity | reflexivity
    | by eexists | ].
  split; [exact Hpending |]. split; [exact Hmajor | exact Hpre].
Defined.

Lemma setLine_keeps_higher_slots_witness :
  lineAt (setLine 3 [mkMessage Icons.CHECKING None None] shownBaz.1 shownBaz.2).2 7 2 3 =
    lineAt shownBaz.2 7 2 3.
Proof.
  apply (setLine_keeps_higher_slots 3 [mkMessage Icons.CHECKING None None]
           shownBaz.1 shownBaz.2 2); [reflexivity | simpl; lia].
Defined.

Lemma clearLine_removes_only_that_line_witness :
  lineAt (clearLine 3 twoLines.1 twoLines.2).2 7 0 3 = None ∧
  lineAt (clearLine 3 twoLines.1 twoLines.2).2 7 0 4 = lineAt twoLines.2 7 0 4.
Proof.
  destruct (clearLine_removes_only_that_line 3 twoLines.1 twoLines.2) as [Hgone Hkept].
  split; [exact (Hgone 0) | apply (Hkept 0 4); lia].
Defined.

Lemma getLayer_lazy_sparse_idempotent_witness :
  sa_get (layers (getLayer 2 {| layers := [] |} (window emptyWorld)).1.2) 2 =
    Some {| lines := []; type := 0 |} ∧
  sa_get (layers (getLayer 2 {| layers := [] |} (window emptyWorld)).1.2) 1 = None.
Proof.
  pose proof (getLayer_lazy_sparse_idempotent 2 {| layers := [] |} (window emptyWorld))
    as Hget.
  destruct (getLayer 2 {| layers := [] |} (window emptyWorld)) as [[l m1] win1] eqn:Heq.
  destruct Hget as (Hreg & Hothers & Hfresh & _).
  vm_compute in Heq. injection Heq as <- <- <-.
  split; [exact Hreg | apply (Hothers 1); lia].
Defined.

Lemma flushDocument_clears_views_and_forgets_witness :
  SetDecorations 0 5 [] ∈ clearCalls 7 shownBaz.2 ∧
  documents (flushDocument 7 shownBaz.2) !! 7 = None.
Proof.
  destruct (flushDocument_clears_views_and_forgets 7 shownBaz.2)
    as (_ & Hclear & Hforgot & _).
  split; [| exact Hforgot].
  assert (∃ l, layerAt shownBaz.2 7 5 = Some l ∧ type l = 5) as (l & Hl & Hty)
    by (vm_compute; eauto).
  assert (SetDecorations 0 (type l) [] ∈ clearCalls 7 shownBaz.2) as Hcall.
  { apply (Hclear 5 l {| editor_id := 0; editor_document := 7 |});
      [exact Hl | by left | reflexivity]. }
  by rewrite Hty in Hcall.
Defined.

(** The scenarios of the specification, with no translation loaded. *)

Example scenario_foo :
  lineTexts (setUpdateMessage l10n_none prerelease_sample 3 foo scan emptyWorld).2 7 3 =
    [Some "⭳"; Some "Install pending"].
Proof. by vm_compute. Qed.

Example scenario_bar :
  lineTexts (setUpdateMessage l10n_none prerelease_sample 3 bar scan emptyWorld).2 7 3 =
    [Some "⚠"; Some "Update available:"; Some "2.0.0-beta.1";
     Some "(attention: major update!)"; Some "<pre-release>"].
Proof. by vm_compute. Qed.

(** A shorter list over a longer one: the checking icon replaces the
    updatable icon of line 3, and the label, the version and the
    qualifiers of the earlier message stay behind it. *)
Example stale_fragments_after_shorter_list :
  lineTexts (setCheckingMessage 3 shownBaz.1 shownBaz.2).2 7 3 =
    [Some "🗘"; Some "Latest version:"; Some "2.0.0-beta.1";
     Some "(install pending)"; Some "(attention: major update!)"; Some "<pre-release>"].
Proof. by vm_compute. Qed.

Example flushDocument_sample_calls :
  calls (window (flushDocument 7 twoLines.2)) =
    (λ ty, SetDecorations 0 ty []) <$> [0; 1; 2; 3; 4; 5].
Proof. by vm_compute. Qed.

Local Close Scope string_scope.

(** ** The table of documents, once more *)

Lemma fromDocument_lookup doc w d :
  documents (fromDocument doc w).2 !! d =
    if decide (d = doc) then Some (fromDocument doc w).1 else documents w !! d.
Proof.
  destruct (fromDocument_cases doc w) as [(m & Hm & ->) | [Hn ->]]; simpl.
  - case_decide; by subst.
  - case_decide; [subst; apply lookup_insert_eq | by apply lookup_insert_ne].
Qed.

Lemma fromDocument_manager_layer doc w j :
  sa_get (layers (fromDocument doc w).1) j = layerAt w doc j.
Proof.
  unfold layerAt.
  destruct (fromDocument_cases doc w) as [(m & Hm & ->) | [Hn ->]]; simpl.
  - by rewrite Hm.
  - rewrite Hn. apply sa_get_nil.
Qed.

Lemma fromDocument_same_window doc w : window (fromDocument doc w).2 = window w.
Proof. by destruct (fromDocument_cases doc w) as [(m & Hm & ->) | [Hn ->]]. Qed.

Lemma fromDocument_layerAt doc w d j : layerAt (fromDocument doc w).2 d j = layerAt w d j.
Proof.
  unfold layerAt at 1. rewrite fromDocument_lookup. case_decide as Hd; [| done].
  subst d. simpl. apply fromDocument_manager_layer.
Qed.

Lemma fromDocument_lineAt doc w d j n : lineAt (fromDocument doc w).2 d j n = lineAt w d j n.
Proof.
  unfold lineAt at 1. rewrite fromDocument_lookup. case_decide as Hd; [| done].
  subst d. simpl. apply fromDocument_line with (fromDocument doc w).2.
  by destruct (fromDocument doc w).
Qed.

(** X1. [fromDocument doc] answers with the manager that the table holds
    for [doc] afterwards. A document that is known keeps its manager and
    nothing changes; one that is not gets a manager without layers. No
    other document's entry changes, the host is not called, and asking
    again gives the same manager and changes nothing. *)
Theorem fromDocument_registers_once (doc : nat) (w : World) :
  let '(m, w1) := fromDocument doc w in
  documents w1 !! doc = Some m ∧
  (∀ d, d ≠ doc → documents w1 !! d = documents w !! d) ∧
  window w1 = window w ∧
  match documents w !! doc with
  | Some m0 => m = m0 ∧ w1 = w
  | None => m = {| layers := [] |}
  end ∧
  fromDocument doc w1 = (m, w1).
Proof.
  pose proof (fromDocument_lookup doc w) as Hlook.
  pose proof (fromDocument_same_window doc w) as Hwin.
  destruct (fromDocument_cases doc w) as [(m0 & Hm & Heq) | [Hn Heq]];
    rewrite Heq in *; simpl in *.
  - rewrite Hm. split; [done |]. split; [done |]. split; [done |].
    split; [done |]. unfold fromDocument. by rewrite Hm.
  - rewrite Hn. split; [apply lookup_insert_eq |].
    split; [intros d Hd; by apply lookup_insert_ne |].
    split; [done |]. split; [done |].
    unfold fromDocument. simpl. by rewrite lookup_insert_eq.
Qed.

(** ** What [setLine] does to the layers and to the host *)

Lemma getLayer_window k m win :
  visibleTextEditors (getLayer k m win).2 = visibleTextEditors win ∧
  calls (getLayer k m win).2 = calls win ∧
  decorationTypes (getLayer k m win).2 =
    match sa_get (layers m) k with
    | Some _ => decorationTypes win
    | None => S (decorationTypes win)
    end.
Proof.
  destruct (getLayer_cases k m win) as [(l & Hl & ->) | [Hn ->]]; simpl.
  - by rewrite Hl.
  - by rewrite Hn.
Qed.

Lemma storeMessages_window line messages : ∀ k m win,
  visibleTextEditors (storeMessages line k messages m win).2 = visibleTextEditors win ∧
  calls (storeMessages line k messages m win).2 = calls win ∧
  decorationTypes win ≤ decorationTypes (storeMessages line k messages m win).2
    ≤ decorationTypes win + length messages.
Proof.
  induction messages as [| message rest IH]; intros k m win; simpl.
  { split; [done |]. split; [done |]. lia. }
  pose proof (getLayer_window k m win) as (Hv & Hc & Ht).
  destruct (getLayer k m win) as [[l m1] win1]. simpl in *.
  destruct (IH (S k) (setLayerLine k line (decorationOf line k message) l m1) win1)
    as (Hv' & Hc' & Ht').
  rewrite Hv', Hc', Hv, Hc. split; [done |]. split; [done |].
  destruct (sa_get (layers m) k); lia.
Qed.

Lemma setLine_instance line messages this w :
  document (setLine line messages this w).1 = document this ∧
  editors (setLine line messages this w).1 = editors this ∧
  renderScheduled (setLine line messages this w).1 = true.
Proof.
  unfold setLine. destruct (fromDocument _ _) as [m w1].
  by destruct (storeMessages _ _ _ _ _).
Qed.

Lemma setLine_documents line messages this w d :
  d ≠ document this →
  documents (setLine line messages this w).2 !! d = documents w !! d.
Proof.
  intros Hd. unfold setLine.
  pose proof (fromDocument_lookup (document this) w d) as Hlook.
  destruct (fromDocument _ _) as [m w1]. destruct (storeMessages _ _ _ _ _).
  simpl in *. rewrite lookup_insert_ne by done. rewrite Hlook. by rewrite decide_False.
Qed.

Lemma setLine_window line messages this w :
  visibleTextEditors (window (setLine line messages this w).2) =
    visibleTextEditors (window w) ∧
  calls (window (setLine line messages this w).2) = calls (window w) ∧
  decorationTypes (window w) ≤ decorationTypes (window (setLine line messages this w).2)
    ≤ decorationTypes (window w) + length messages.
Proof.
  unfold setLine.
  pose proof (fromDocument_same_window (document this) w) as Hwin.
  destruct (fromDocument _ _) as [m w1]. simpl in Hwin.
  pose proof (storeMessages_window line messages 0
                (if flushed this then m else flushLayers m) (window w1)) as Hstore.
  destruct (storeMessages _ _ _ _ _). simpl in *. by rewrite <- Hwin.
Qed.

Lemma clearLine_documents line this w d :
  d ≠ document this →
  documents (clearLine line this w).2 !! d = documents w !! d.
Proof.
  intros Hd. unfold clearLine.
  pose proof (fromDocument_lookup (document this) w d) as Hlook.
  destruct (fromDocument _ _) as [m w1].
  simpl in *. rewrite lookup_insert_ne by done. rewrite Hlook. by rewrite decide_False.
Qed.

Lemma clearLine_window line this w : window (clearLine line this w).2 = window w.
Proof.
  unfold clearLine. pose proof (fromDocument_same_window (document this) w) as Hwin.
  by destruct (fromDocument _ _) as [m w1].
Qed.

(** X2. [setLine] and [clearLine] on an instance of one document leave
    the manager of every other document as it is. *)
Theorem setLine_clearLine_other_documents (line : nat) (messages : list Message)
    (this : DocumentDecoration) (w : World) (d : nat) :
  d ≠ document this →
  documents (setLine line messages this w).2 !! d = documents w !! d ∧
  documents (clearLine line this w).2 !! d = documents w !! d.
Proof.
  intros Hd. split; [by apply setLine_documents | by apply clearLine_documents].
Qed.

(** ** Decoration types of the layers *)

Lemma extends_same f f' n n' :
  n ≤ n' → (∀ j, f' j = f j) → extends f f' n n'.
Proof.
  intros Hn Hsame. split; [done |]. split.
  - intros j t Hj. by rewrite Hsame.
  - intros j t Hj. left. by rewrite <- Hsame.
Qed.

Lemma extends_pointwise f f' g g' n n' :
  (∀ j, f j = g j) → (∀ j, f' j = g' j) → extends f f' n n' → extends g g' n n'.
Proof.
  intros Hf Hf' (Hn & Hkeep & Hnew). split; [done |]. split.
  - intros j t Hj. rewrite <- Hf'. apply Hkeep. by rewrite Hf.
  - intros j t Hj. rewrite <- Hf' in Hj.
    destruct (Hnew j t Hj) as [Hold | (Hnone & Ht & Honce)].
    + left. by rewrite <- Hf.
    + right. rewrite <- Hf. split; [done |]. split; [done |].
      intros j' Hj'. apply Honce. by rewrite Hf'.
Qed.

Lemma extends_trans f f1 f2 n n1 n2 :
  extends f f1 n n1 → extends f1 f2 n1 n2 → extends f f2 n n2.
Proof.
  intros (Hn & Hkeep & Hnew) (Hn1 & Hkeep1 & Hnew1). split; [lia |]. split.
  - intros j t Hj. by apply Hkeep1, Hkeep.
  - intros j t Hj.
    destruct (Hnew1 j t Hj) as [Hold1 | (Hnone1 & Ht1 & Honce1)].
    + destruct (Hnew j t Hold1) as [Hold | (Hnone & Ht & Honce)]; [by left |].
      right. split; [done |]. split; [lia |].
      intros j' Hj'.
      destruct (Hnew1 j' t Hj') as [Hold' | (_ & Ht' & _)]; [by apply Honce | lia].
    + right. split; [| split; [lia | done]].
      destruct (f j) as [t0|] eqn:Hfj; [| done].
      apply Hkeep in Hfj. congruence.
Qed.

Lemma extends_below f f' n n' : below f n → extends f f' n n' → below f' n'.
Proof.
  intros Hbelow (Hn & _ & Hnew) j t Hj.
  destruct (Hnew j t Hj) as [Hold | (_ & Ht & _)]; [| lia].
  apply Hbelow in Hold. lia.
Qed.

Lemma store_step_typeAt k line d m win l m1 win1 j :
  getLayer k m win = (l, m1, win1) →
  typeAt (setLayerLine k line d l m1) j =
    if decide (k = j) then Some (default (decorationTypes win) (typeAt m k))
    else typeAt m j.
Proof.
  intros Hget. unfold typeAt, setLayerLine. cbn [layers]. rewrite sa_get_set.
  case_decide as Hkj.
  - destruct (getLayer_cases k m win) as [(l0 & Hl & Heq) | [Hn Heq]];
      rewrite Heq in Hget; injection Hget as <- <- <-.
    + by rewrite Hl.
    + by rewrite Hn.
  - by rewrite (getLayer_elsewhere _ _ _ _ _ _ j Hget).
Qed.

Lemma store_step_extends k line d m win l m1 win1 :
  getLayer k m win = (l, m1, win1) →
  below (typeAt m) (decorationTypes win) →
  extends (typeAt m) (typeAt (setLayerLine k line d l m1))
          (decorationTypes win) (decorationTypes win1).
Proof.
  intros Hget Hbelow.
  pose proof (getLayer_window k m win) as (_ & _ & Htypes).
  rewrite Hget in Htypes. simpl in Htypes.
  assert (typeAt m k = type <$> sa_get (layers m) k) as Hk by done.
  split; [destruct (sa_get (layers m) k); lia |]. split.
  - intros j t Hj. rewrite (store_step_typeAt _ _ _ _ _ _ _ _ j Hget).
    case_decide as Hkj; [| done]. subst j. by rewrite Hj.
  - intros j t. rewrite (store_step_typeAt _ _ _ _ _ _ _ _ j Hget).
    case_decide as Hkj; [| by left]. subst j.
    destruct (typeAt m k) as [t0|] eqn:Htk; simpl; intros [= <-]; [by left |].
    right. split; [done |].
    destruct (sa_get (layers m) k); [done |].
    split; [lia |].
    intros j'. rewrite (store_step_typeAt _ _ _ _ _ _ _ _ j' Hget).
    case_decide as Hkj'; [done |].
    intros Hj'. apply Hbelow in Hj'. lia.
Qed.

Lemma storeMessages_extends line messages : ∀ k m win,
  below (typeAt m) (decorationTypes win) →
  extends (typeAt m) (typeAt (storeMessages line k messages m win).1)
          (decorationTypes win)
          (decorationTypes (storeMessages line k messages m win).2).
Proof.
  induction messages as [| message rest IH]; intros k m win Hbelow; simpl.
  { by apply extends_same. }
  destruct (getLayer k m win) as [[l m1] win1] eqn:Hget.
  pose proof (store_step_extends k line (decorationOf line k message) _ _ _ _ _
                Hget Hbelow) as Hstep.
  eapply extends_trans; [exact Hstep |].
  apply IH. by eapply extends_below.
Qed.

Lemma storeMessages_keeps_types line messages : ∀ k m win j t,
  typeAt m j = Some t → typeAt (storeMessages line k messages m win).1 j = Some t.
Proof.
  induction messages as [| message rest IH]; intros k m win j t Hj; simpl; [done |].
  destruct (getLayer k m win) as [[l m1] win1] eqn:Hget.
  apply IH. rewrite (store_step_typeAt _ _ _ _ _ _ _ _ j Hget).
  case_decide as Hkj; [| done]. subst j. by rewrite Hj.
Qed.

Lemma storeMessages_dense line messages : ∀ k m win j,
  k ≤ j < k + length messages →
  is_Some (typeAt (storeMessages line k messages m win).1 j).
Proof.
  induction messages as [| message rest IH]; intros k m win j Hj; simpl in *; [lia |].
  destruct (getLayer k m win) as [[l m1] win1] eqn:Hget.
  destruct (decide (j = k)) as [-> | Hjk].
  - eexists. apply storeMessages_keeps_types.
    rewrite (store_step_typeAt _ _ _ _ _ _ _ _ k Hget). by rewrite decide_True.
  - apply IH. lia.
Qed.

Lemma flushLayers_typeAt m j : typeAt (flushLayers m) j = typeAt m j.
Proof.
  unfold typeAt, flushLayers. cbn [layers]. rewrite sa_get_map.
  by destruct (sa_get (layers m) j).
Qed.

Lemma typesOK_extends w w' doc :
  typesOK w →
  (∀ d j, d ≠ doc → layerAt w' d j = layerAt w d j) →
  extends (λ j, type <$> layerAt w doc j) (λ j, type <$> layerAt w' doc j)
          (decorationTypes (window w)) (decorationTypes (window w')) →
  typesOK w'.
Proof.
  intros [Hbelow Hdistinct] Hframe (Hn & Hkeep & Hnew).
  assert (∀ d j l', layerAt w' d j = Some l' →
            (∃ l, layerAt w d j = Some l ∧ type l = type l') ∨
            (d = doc ∧ layerAt w doc j = None ∧
             decorationTypes (window w) ≤ type l' < decorationTypes (window w') ∧
             ∀ j' l'', layerAt w' doc j' = Some l'' → type l'' = type l' → j' = j))
    as Hwhere.
  { intros d j l' Hl'. destruct (decide (d = doc)) as [-> | Hd].
    - destruct (Hnew j (type l')) as [Hold | (Hnone & Ht & Honce)].
      { simpl. by rewrite Hl'. }
      + left. simpl in Hold. destruct (layerAt w doc j) as [l|]; [| done].
        exists l. split; [done | by injection Hold].
      + right. split; [done |]. simpl in Hnone.
        split; [by destruct (layerAt w doc j) |]. split; [done |].
        intros j' l'' Hl'' Hty. apply Honce. simpl. rewrite Hl''. simpl. by rewrite Hty.
    - left. exists l'. by rewrite <- Hframe. }
  split.
  - intros d j l' Hl'.
    destruct (Hwhere d j l' Hl') as [(l & Hl & <-) | (_ & _ & Ht & _)]; [| lia].
    apply Hbelow in Hl. lia.
  - intros d j l1 d' j' l2 Hl1 Hl2 Hty.
    destruct (Hwhere d j l1 Hl1) as [(o1 & Ho1 & Hty1) | (-> & _ & Ht1 & Honce1)];
      destruct (Hwhere d' j' l2 Hl2) as [(o2 & Ho2 & Hty2) | (-> & _ & Ht2 & Honce2)].
    + eapply Hdistinct; [exact Ho1 | exact Ho2 | congruence].
    + apply Hbelow in Ho1. lia.
    + apply Hbelow in Ho2. lia.
    + split; [done |]. symmetry. by eapply Honce1.
Qed.

Lemma typesOK_shrink w w' :
  typesOK w →
  decorationTypes (window w) ≤ decorationTypes (window w') →
  (∀ d j l', layerAt w' d j = Some l' → ∃ l, layerAt w d j = Some l ∧ type l = type l') →
  typesOK w'.
Proof.
  intros [Hbelow Hdistinct] Hn Hsub. split.
  - intros d j l' Hl'. destruct (Hsub d j l' Hl') as (l & Hl & <-).
    apply Hbelow in Hl. lia.
  - intros d j l1 d' j' l2 Hl1 Hl2 Hty.
    destruct (Hsub d j l1 Hl1) as (o1 & Ho1 & Hty1).
    destruct (Hsub d' j' l2 Hl2) as (o2 & Ho2 & Hty2).
    eapply Hdistinct; [exact Ho1 | exact Ho2 | congruence].
Qed.

(** ** The layers after each method *)

Lemma same_manager_same_layers w w' d :
  documents w' !! d = documents w !! d →
  (∀ j, layerAt w' d j = layerAt w d j) ∧ (∀ j n, lineAt w' d j n = lineAt w d j n).
Proof. intros Hd. unfold layerAt, lineAt. by rewrite Hd. Qed.

Lemma setLine_world line messages this w :
  (setLine line messages this w).2 =
    let m1 := if flushed this then (fromDocument (document this) w).1
              else flushLayers (fromDocument (document this) w).1 in
    {| documents := <[document this := (storeMessages line 0 messages m1 (window w)).1]>
                      (documents (fromDocument (document this) w).2);
       window := (storeMessages line 0 messages m1 (window w)).2 |}.
Proof.
  unfold setLine. pose proof (fromDocument_same_window (document this) w) as Hwin.
  destruct (fromDocument _ _) as [m w1]. simpl in *. rewrite Hwin.
  by destruct (storeMessages _ _ _ _ _).
Qed.

Lemma setLine_layer_type line messages this w j :
  type <$> layerAt (setLine line messages this w).2 (document this) j =
    typeAt (storeMessages line 0 messages
              (if flushed this then (fromDocument (document this) w).1
               else flushLayers (fromDocument (document this) w).1) (window w)).1 j.
Proof.
  rewrite setLine_world. unfold layerAt. simpl. by rewrite lookup_insert_eq.
Qed.

Lemma setLine_start_type this w j :
  typeAt (if flushed this then (fromDocument (document this) w).1
          else flushLayers (fromDocument (document this) w).1) j =
    type <$> layerAt w (document this) j.
Proof.
  destruct (flushed this); [| rewrite flushLayers_typeAt];
    unfold typeAt; by rewrite fromDocument_manager_layer.
Qed.

Lemma setLine_extends line messages this w :
  typesOK w →
  extends (λ j, type <$> layerAt w (document this) j)
          (λ j, type <$> layerAt (setLine line messages this w).2 (document this) j)
          (decorationTypes (window w))
          (decorationTypes (window (setLine line messages this w).2)).
Proof.
  intros [Hbelow _].
  eapply extends_pointwise;
    [apply (setLine_start_type this w)
    | intros j; symmetry; apply (setLine_layer_type line messages this w j) |].
  rewrite setLine_world. simpl. apply storeMessages_extends.
  intros j t. rewrite setLine_start_type.
  destruct (layerAt w (document this) j) as [l|] eqn:Hl; [| done].
  intros [= <-]. by eapply Hbelow.
Qed.

Lemma setLine_typesOK line messages this w :
  typesOK w → typesOK (setLine line messages this w).2.
Proof.
  intros Hok. apply (typesOK_extends w _ (document this)); [done | |].
  - intros d j Hd. by apply same_manager_same_layers, setLine_documents.
  - by apply setLine_extends.
Qed.

Lemma clearLine_layerAt line this w j :
  layerAt (clearLine line this w).2 (document this) j =
    withoutLine line <$> layerAt w (document this) j.
Proof.
  unfold clearLine. pose proof (fromDocument_manager_layer (document this) w j) as Hm.
  destruct (fromDocument _ _) as [m w1]. unfold layerAt at 1. simpl in *.
  rewrite lookup_insert_eq. simpl. by rewrite sa_get_map, Hm.
Qed.

Lemma flushLayersOf_documents doc w d :
  d ≠ doc → documents (flushLayersOf doc w) !! d = documents w !! d.
Proof.
  intros Hd. unfold flushLayersOf. pose proof (fromDocument_lookup doc w d) as Hlook.
  destruct (fromDocument _ _) as [m w1]. simpl in *.
  rewrite lookup_insert_ne by done. rewrite Hlook. by rewrite decide_False.
Qed.

Lemma flushLayersOf_layerAt doc w j :
  layerAt (flushLayersOf doc w) doc j = emptied <$> layerAt w doc j.
Proof.
  unfold flushLayersOf. pose proof (fromDocument_manager_layer doc w j) as Hm.
  destruct (fromDocument _ _) as [m w1]. unfold layerAt at 1. simpl in *.
  rewrite lookup_insert_eq. simpl. unfold flushLayers. cbn [layers].
  by rewrite sa_get_map, Hm.
Qed.

Lemma flushLayersOf_window doc w : window (flushLayersOf doc w) = window w.
Proof.
  unfold flushLayersOf. pose proof (fromDocument_same_window doc w) as Hwin.
  by destruct (fromDocument _ _) as [m w1].
Qed.

Lemma getLayerOf_world doc k w :
  getLayerOf doc k w =
    {| documents := <[doc := (getLayer k (fromDocument doc w).1 (window w)).1.2]>
                      (documents (fromDocument doc w).2);
       window := (getLayer k (fromDocument doc w).1 (window w)).2 |}.
Proof.
  unfold getLayerOf. pose proof (fromDocument_same_window doc w) as Hwin.
  destruct (fromDocument _ _) as [m w1]. simpl in *. rewrite Hwin.
  by destruct (getLayer _ _ _) as [[l m1] win1].
Qed.

Lemma getLayerOf_documents doc k w d :
  d ≠ doc → documents (getLayerOf doc k w) !! d = documents w !! d.
Proof.
  intros Hd. rewrite getLayerOf_world. simpl. rewrite lookup_insert_ne by done.
  rewrite fromDocument_lookup. by rewrite decide_False.
Qed.

Lemma getLayer_typeAt k m win j :
  typeAt (getLayer k m win).1.2 j =
    if decide (k = j) then Some (default (decorationTypes win) (typeAt m k))
    else typeAt m j.
Proof.
  unfold typeAt.
  destruct (getLayer_cases k m win) as [(l & Hl & ->) | [Hn ->]]; simpl.
  - case_decide; [subst; by rewrite Hl | done].
  - rewrite sa_get_set. case_decide; [by rewrite Hn | done].
Qed.

Lemma getLayer_extends k m win :
  below (typeAt m) (decorationTypes win) →
  extends (typeAt m) (typeAt (getLayer k m win).1.2)
          (decorationTypes win) (decorationTypes (getLayer k m win).2).
Proof.
  intros Hbelow. pose proof (getLayer_window k m win) as (_ & _ & Htypes).
  assert (typeAt m k = type <$> sa_get (layers m) k) as Hk by done.
  split; [destruct (sa_get (layers m) k); lia |]. split.
  - intros j t Hj. rewrite getLayer_typeAt.
    case_decide as Hkj; [| done]. subst j. by rewrite Hj.
  - intros j t. rewrite getLayer_typeAt.
    case_decide as Hkj; [| by left]. subst j.
    destruct (typeAt m k) as [t0|] eqn:Htk; simpl; intros [= <-]; [by left |].
    right. split; [done |].
    destruct (sa_get (layers m) k); [done |].
    split; [lia |].
    intros j'. rewrite getLayer_typeAt.
    case_decide as Hkj'; [done |].
    intros Hj'. apply Hbelow in Hj'. lia.
Qed.

Lemma getLayer_managerLine k m win j n :
  managerLine (getLayer k m win).1.2 j n = managerLine m j n.
Proof.
  unfold managerLine.
  destruct (getLayer_cases k m win) as [(l & Hl & ->) | [Hn ->]]; simpl; [done |].
  rewrite sa_get_set. case_decide as Hkj; [| done].
  subst j. rewrite Hn. simpl. apply sa_get_nil.
Qed.

Lemma getLayerOf_typesOK doc k w : typesOK w → typesOK (getLayerOf doc k w).
Proof.
  intros Hok. apply (typesOK_extends w _ doc); [done | |].
  - intros d j Hd. by apply same_manager_same_layers, getLayerOf_documents.
  - pose proof Hok as [Hbelow _]. rewrite getLayerOf_world. cbn [window].
    eapply extends_pointwise; [| | apply (getLayer_extends k (fromDocument doc w).1 (window w))].
    + intros j. unfold typeAt. by rewrite fromDocument_manager_layer.
    + intros j. unfold layerAt. simpl. by rewrite lookup_insert_eq.
    + intros j t. unfold typeAt. rewrite fromDocument_manager_layer.
      destruct (layerAt w doc j) as [l|] eqn:Hl; [| done].
      intros [= <-]. by eapply Hbelow.
Qed.

Lemma flushDocument_documents doc w :
  documents (flushDocument doc w) = delete doc (documents w).
Proof.
  unfold flushDocument.
  destruct (fromDocument_cases doc w) as [(m & Hm & ->) | [Hn ->]]; simpl; [done |].
  by rewrite delete_insert_eq.
Qed.

Lemma flushDocument_window doc w :
  visibleTextEditors (window (flushDocument doc w)) = visibleTextEditors (window w) ∧
  decorationTypes (window (flushDocument doc w)) = decorationTypes (window w).
Proof.
  unfold flushDocument. pose proof (fromDocument_same_window doc w) as Hwin.
  destruct (fromDocument doc w) as [m w1]. simpl in *. rewrite Hwin.
  generalize (sa_values (layers m)) (window w). clear.
  intros ls. induction ls as [| l ls IH]; intros win; simpl; [done |].
  destruct (clearOnEditors_calls doc win l) as (Hv & Ht & _).
  destruct (IH (clearOnEditors doc win l)) as [Hv' Ht']. by rewrite Hv', Ht'.
Qed.

(** ** The render callback *)

Lemma paintOnEditors_calls this win l :
  visibleTextEditors (paintOnEditors this win l) = visibleTextEditors win ∧
  decorationTypes (paintOnEditors this win l) = decorationTypes win ∧
  calls (paintOnEditors this win l) = calls win ++ paintCallsFor this l.
Proof.
  unfold paintOnEditors, paintCallsFor. generalize (editors this) win. clear.
  intros es. induction es as [| e es IH]; intros win; simpl.
  { by rewrite app_nil_r. }
  destruct (IH (setDecorations e (type l) (sa_values (lines l)) win)) as (Hv & Ht & Hc).
  rewrite Hv, Ht, Hc. simpl. by rewrite <- app_assoc.
Qed.

Lemma paintLayers_calls this : ∀ ls win,
  visibleTextEditors (foldl (paintOnEditors this) win ls) = visibleTextEditors win ∧
  decorationTypes (foldl (paintOnEditors this) win ls) = decorationTypes win ∧
  calls (foldl (paintOnEditors this) win ls) = calls win ++ (ls ≫= paintCallsFor this).
Proof.
  induction ls as [| l ls IH]; intros win; simpl.
  { by rewrite app_nil_r. }
  destruct (paintOnEditors_calls this win l) as (Hv & Ht & Hc).
  destruct (IH (paintOnEditors this win l)) as (Hv' & Ht' & Hc').
  rewrite Hv', Ht', Hc', Hv, Ht, Hc. by rewrite <- app_assoc.
Qed.

Lemma renderCallback_world this w :
  documents (renderCallback this w).2 = documents (fromDocument (document this) w).2 ∧
  visibleTextEditors (window (renderCallback this w).2) = visibleTextEditors (window w) ∧
  decorationTypes (window (renderCallback this w).2) = decorationTypes (window w) ∧
  calls (window (renderCallback this w).2) = calls (window w) ++ paintCalls this w.
Proof.
  unfold renderCallback, paintCalls.
  destruct (fromDocument_cases (document this) w) as [(m & Hm & ->) | [Hn ->]]; simpl.
  - rewrite Hm. split; [done |]. apply paintLayers_calls.
  - rewrite Hn. by rewrite app_nil_r.
Qed.

Lemma renderCallback_layers this w d :
  (∀ j, layerAt (renderCallback this w).2 d j = layerAt w d j) ∧
  (∀ j n, lineAt (renderCallback this w).2 d j n = lineAt w d j n).
Proof.
  destruct (renderCallback_world this w) as (Hdocs & _).
  split.
  - intros j. rewrite <- (fromDocument_layerAt (document this) w d j).
    unfold layerAt. by rewrite Hdocs.
  - intros j n. rewrite <- (fromDocument_lineAt (document this) w d j n).
    unfold lineAt. by rewrite Hdocs.
Qed.

(** ** What every reachable state keeps *)

Lemma flushDocument_layers doc w d :
  (∀ j, layerAt (flushDocument doc w) d j = if decide (d = doc) then None else layerAt w d j) ∧
  (∀ j n, lineAt (flushDocument doc w) d j n =
            if decide (d = doc) then None else lineAt w d j n).
Proof.
  unfold layerAt, lineAt. rewrite flushDocument_documents.
  case_decide as Hd.
  - subst d. by rewrite lookup_delete_eq.
  - by rewrite lookup_delete_ne.
Qed.

Lemma step_typesOK w w' : step w w' → typesOK w → typesOK w'.
Proof.
  intros Hstep Hok. destruct Hstep.
  - apply (typesOK_shrink w); [done | by rewrite fromDocument_same_window |].
    intros d j l'. rewrite fromDocument_layerAt. eauto.
  - by apply getLayerOf_typesOK.
  - apply (typesOK_shrink w); [done | by rewrite flushLayersOf_window |].
    intros d j l'. destruct (decide (d = doc)) as [-> | Hd].
    + rewrite flushLayersOf_layerAt. destruct (layerAt w doc j) as [l|]; [| done].
      intros [= <-]. eauto.
    + destruct (same_manager_same_layers w _ d (flushLayersOf_documents doc w d Hd))
        as [-> _]. eauto.
  - apply (typesOK_shrink w); [done | |].
    + destruct (flushDocument_window doc w) as [_ ->]. done.
    + intros d j l'. destruct (flushDocument_layers doc w d) as [-> _].
      case_decide; [done | eauto].
  - by apply setLine_typesOK.
  - apply (typesOK_shrink w); [done | by rewrite clearLine_window |].
    intros d j l'. destruct (decide (d = document this)) as [-> | Hd].
    + rewrite clearLine_layerAt. destruct (layerAt w (document this) j) as [l|]; [| done].
      intros [= <-]. eauto.
    + destruct (same_manager_same_layers w _ d (clearLine_documents line this w d Hd))
        as [-> _]. eauto.
  - apply (typesOK_shrink w); [done | |].
    + destruct (renderCallback_world this w) as (_ & _ & -> & _). done.
    + intros d j l'. destruct (renderCallback_layers this w d) as [-> _]. eauto.
  - apply (typesOK_shrink w); [done | done |]. intros d j l'. eauto.
Qed.

Lemma linesInPlace_from w w' :
  linesInPlace w →
  (∀ d j n o, lineAt w' d j n = Some o → lineAt w d j n = Some o ∨ range o = endOfLine n) →
  linesInPlace w'.
Proof.
  intros Hin Hfrom d j n o Ho. destruct (Hfrom d j n o Ho) as [Hold | Hnew]; [| done].
  by eapply Hin.
Qed.

Lemma setLine_lineAt_other line messages this w d j n :
  d ≠ document this → lineAt (setLine line messages this w).2 d j n = lineAt w d j n.
Proof. intros Hd. by apply same_manager_same_layers, setLine_documents. Qed.

Lemma step_linesInPlace w w' : step w w' → linesInPlace w → linesInPlace w'.
Proof.
  intros Hstep Hin. apply (linesInPlace_from w); [done |].
  intros d j n o. destruct Hstep.
  - rewrite fromDocument_lineAt. by left.
  - destruct (decide (d = doc)) as [-> | Hd].
    + rewrite getLayerOf_world. unfold lineAt at 1. simpl. rewrite lookup_insert_eq. simpl.
      rewrite getLayer_managerLine.
      rewrite (fromDocument_line doc w _ (fromDocument doc w).2 j n);
        [by left | by destruct (fromDocument doc w)].
    + destruct (same_manager_same_layers w _ d (getLayerOf_documents doc layer w d Hd))
        as [_ ->]. by left.
  - destruct (decide (d = doc)) as [-> | Hd].
    + unfold lineAt at 1, flushLayersOf. destruct (fromDocument doc w) as [m w1].
      simpl. rewrite lookup_insert_eq. simpl. by rewrite flushLayers_line.
    + destruct (same_manager_same_layers w _ d (flushLayersOf_documents doc w d Hd))
        as [_ ->]. by left.
  - destruct (flushDocument_layers doc w d) as [_ ->]. case_decide; [done | by left].
  - destruct (decide (d = document this)) as [-> | Hd].
    + rewrite setLine_lineAt. case_decide as Hwritten.
      * destruct Hwritten as [_ ->]. destruct (messages !! j); [| done].
        intros [= <-]. by right.
      * destruct (flushed this); [by left | done].
    + rewrite setLine_lineAt_other by done. by left.
  - destruct (decide (d = document this)) as [-> | Hd].
    + rewrite clearLine_lineAt. case_decide; [done | by left].
    + destruct (same_manager_same_layers w _ d (clearLine_documents line this w d Hd))
        as [_ ->]. by left.
  - destruct (renderCallback_layers this w d) as [_ ->]. by left.
  - by left.
Qed.

Lemma no_documents_typesOK w : documents w = ∅ → typesOK w.
Proof.
  intros Hempty. split.
  - intros d j l. unfold layerAt. by rewrite Hempty, lookup_empty.
  - intros d j l d' j' l'. unfold layerAt. by rewrite Hempty, lookup_empty.
Qed.

Lemma reachable_keeps w : reachable w → typesOK w ∧ linesInPlace w.
Proof.
  intros (w0 & Hempty & Hsteps).
  assert (typesOK w0 ∧ linesInPlace w0) as Hstart.
  { split; [by apply no_documents_typesOK |].
    intros d j n o. unfold lineAt. by rewrite Hempty, lookup_empty. }
  clear Hempty. induction Hsteps as [w0 | w0 w1 w2 Hstep _ IH]; [done |].
  apply IH. destruct Hstart as [Hok Hin].
  split; [by apply (step_typesOK w0) | by apply (step_linesInPlace w0)].
Qed.

Lemma reachable_step w w' : reachable w → step w w' → reachable w'.
Proof.
  intros (w0 & Hempty & Hsteps) Hstep. exists w0. split; [done |].
  by eapply rtc_r.
Qed.

(** X3. In every state that the extension can reach, each layer's
    decoration type is one that the host has created, and no two layers,
    of the same document or of different ones, share a decoration type. *)
Theorem reachable_typesOK (w : World) : reachable w → typesOK w.
Proof.
  intros (w0 & Hempty & Hsteps).
  apply no_documents_typesOK in Hempty.
  induction Hsteps as [w0 | w0 w1 w2 Hstep _ IH]; [done |].
  apply IH. by apply (step_typesOK w0).
Qed.

(** X4. In every state that the extension can reach, the entry that a
    layer holds for line [n] is a decoration of zero width at column 4096
    of line [n]. *)
Theorem reachable_linesInPlace (w : World) : reachable w → linesInPlace w.
Proof.
  intros (w0 & Hempty & Hsteps).
  assert (linesInPlace w0) as Hin.
  { intros d j n o. unfold lineAt. by rewrite Hempty, lookup_empty. }
  clear Hempty. induction Hsteps as [w0 | w0 w1 w2 Hstep _ IH]; [done |].
  apply IH. by apply (step_linesInPlace w0).
Qed.

(** ** What an editor shows after a paint *)

Lemma painted_app cs new e ty :
  painted (cs ++ new) e ty = foldl (paintStep e ty) (painted cs e ty) new.
Proof. unfold painted. by rewrite foldl_app. Qed.

Lemma paintStep_fold e ty o : ∀ new shown,
  (∀ o', SetDecorations e ty o' ∈ new → o' = o) →
  foldl (paintStep e ty) shown new = o ∨
  (foldl (paintStep e ty) shown new = shown ∧ ∀ o', SetDecorations e ty o' ∉ new).
Proof.
  induction new as [| c rest IH]; intros shown Hall; simpl.
  { right. split; [done |]. intros o'. apply not_elem_of_nil. }
  destruct (IH (paintStep e ty shown c)) as [Ho | [Hsame Hnone]].
  { intros o' Ho'. apply Hall. by right. }
  { by left. }
  destruct c as [e' ty' options]. simpl in *.
  case_decide as Hmatch.
  - destruct Hmatch as [-> ->]. left. rewrite Hsame. apply Hall. by left.
  - right. split; [done |]. intros o' [Heq | Hin]%elem_of_cons.
    + injection Heq as <- <- <-. by apply Hmatch.
    + by apply (Hnone o').
Qed.

Lemma painted_last cs new e ty o :
  (∀ o', SetDecorations e ty o' ∈ new → o' = o) →
  SetDecorations e ty o ∈ new →
  painted (cs ++ new) e ty = o.
Proof.
  intros Hall Hin. rewrite painted_app.
  destruct (paintStep_fold e ty o new (painted cs e ty) Hall) as [Ho | [_ Hnone]];
    [done |].
  by destruct (Hnone o).
Qed.

Lemma painted_untouched cs new e ty :
  (∀ o', SetDecorations e ty o' ∉ new) →
  painted (cs ++ new) e ty = painted cs e ty.
Proof.
  intros Hnone. rewrite painted_app.
  destruct (paintStep_fold e ty [] new (painted cs e ty)) as [Ho | [Hsame _]];
    [| | done].
  - intros o' Hin. by destruct (Hnone o').
  - generalize (painted cs e ty). revert Hnone. clear.
    induction new as [| c rest IH]; intros Hnone shown; simpl; [done |].
    rewrite IH.
    + destruct c as [e' ty' options]. simpl. case_decide as Hmatch; [| done].
      destruct Hmatch as [-> ->]. destruct (Hnone options). by left.
    + intros o' Hin. apply (Hnone o'). by right.
Qed.

Lemma elem_of_paintCalls this w c :
  c ∈ paintCalls this w ↔
  ∃ j l e, layerAt w (document this) j = Some l ∧ e ∈ editors this ∧
           c = SetDecorations (editor_id e) (type l) (sa_values (lines l)).
Proof.
  unfold paintCalls, layerAt.
  destruct (documents w !! document this) as [m|]; simpl.
  - rewrite list_elem_of_bind. split.
    + intros (l & Hc & Hl). apply elem_of_sa_values in Hl as [j Hj].
      unfold paintCallsFor in Hc. apply list_elem_of_fmap in Hc as (e & -> & He).
      eauto 10.
    + intros (j & l & e & Hj & He & ->). exists l. split.
      * unfold paintCallsFor.
        by apply (list_elem_of_fmap_2
                    (λ e, SetDecorations (editor_id e) (type l) (sa_values (lines l)))).
      * apply elem_of_sa_values. eauto.
  - split; [by intros ?%elem_of_nil | by intros (j & l & e & ? & _)].
Qed.

Lemma renderCallback_painted this w e j l :
  typesOK w →
  e ∈ editors this →
  layerAt w (document this) j = Some l →
  painted (calls (window (renderCallback this w).2)) (editor_id e) (type l) =
    sa_values (lines l).
Proof.
  intros [_ Hdistinct] He Hl.
  destruct (renderCallback_world this w) as (_ & _ & _ & ->).
  apply painted_last.
  - intros o' (j0 & l0 & e0 & Hl0 & _ & Hc)%elem_of_paintCalls.
    injection Hc as _ Hty ->.
    destruct (Hdistinct _ _ _ _ _ _ Hl Hl0 Hty) as [_ <-]. congruence.
  - apply elem_of_paintCalls. eauto 10.
Qed.

(** X5. After the render callback has run, each editor of the instance
    shows, for the decoration type of each layer of the document, the
    entries of that layer, in line order. *)
Theorem renderCallback_shows_the_layers (this : DocumentDecoration) (w : World)
    (e : TextEditor) (j : nat) (l : DocumentDecorationLayer) :
  reachable w →
  e ∈ editors this →
  layerAt w (document this) j = Some l →
  painted (calls (window (renderCallback this w).2)) (editor_id e) (type l) =
    sa_values (lines l) ∧
  ∀ o, o ∈ sa_values (lines l) ↔ ∃ n, lineAt w (document this) j n = Some o.
Proof.
  intros Hreach He Hl. split.
  - apply (renderCallback_painted this w e j l); [by apply reachable_keeps | done | done].
  - intros o. rewrite elem_of_sa_values. unfold lineAt, managerLine, layerAt in *.
    destruct (documents w !! document this) as [m|]; simpl in *; [| done].
    by rewrite Hl.
Qed.

(** X6. A line that was cleared is gone from the next paint: after
    [clearLine n] and a run of the render callback, no editor of the
    instance shows, for any layer of the document, a decoration on line
    [n]. *)
Theorem cleared_line_is_not_painted (n : nat) (this : DocumentDecoration) (w : World)
    (e : TextEditor) (j : nat) (l : DocumentDecorationLayer) (o : DecorationOptions) :
  reachable w →
  e ∈ editors this →
  layerAt w (document this) j = Some l →
  o ∈ painted (calls (window (renderCallback (clearLine n this w).1
                                (clearLine n this w).2).2))
              (editor_id e) (type l) →
  pos_line (range_start (range o)) ≠ n.
Proof.
  intros Hreach He Hl.
  assert (reachable (clearLine n this w).2) as Hreach'
    by (eapply reachable_step; [done | apply step_clearLine]).
  destruct (reachable_keeps _ Hreach') as [Hok' Hin'].
  assert (document (clearLine n this w).1 = document this ∧
          editors (clearLine n this w).1 = editors this) as [Hdoc Hed].
  { unfold clearLine. by destruct (fromDocument _ _). }
  assert (layerAt (clearLine n this w).2 (document (clearLine n this w).1) j =
            Some (withoutLine n l)) as Hl'.
  { rewrite Hdoc, clearLine_layerAt. by rewrite Hl. }
  rewrite (renderCallback_painted _ _ e j (withoutLine n l) Hok');
    [| by rewrite Hed | done].
  simpl. intros (n' & Hn')%elem_of_sa_values.
  rewrite sa_get_delete in Hn'. case_decide as Hne; [done |].
  assert (lineAt (clearLine n this w).2 (document this) j n' = Some o) as Hline.
  { rewrite clearLine_lineAt, decide_False by done.
    unfold lineAt, layerAt, managerLine in *.
    destruct (documents w !! document this); simpl in *; [| done]. by rewrite Hl. }
  apply Hin' in Hline. rewrite Hline. simpl. congruence.
Qed.

(** X7. The render callback paints only editors that were visible and
    showed the document when the instance was made, and only with the
    entries of the document's own layers: the calls it adds are one
    [setDecorations(layer.type, entries of the layer)] per layer and such
    editor. *)
Theorem renderCallback_paints_own_editors (doc : nat) (w0 : World)
    (this : DocumentDecoration) (w : World) :
  document this = doc →
  editors this = editors (newDocumentDecoration doc w0) →
  calls (window (renderCallback this w).2) = calls (window w) ++ paintCalls this w ∧
  ∀ c, c ∈ paintCalls this w →
    ∃ j l e,
      layerAt w doc j = Some l ∧
      e ∈ visibleTextEditors (window w0) ∧ editor_document e = doc ∧
      c = SetDecorations (editor_id e) (type l) (sa_values (lines l)).
Proof.
  intros <- Hed. split; [apply renderCallback_world |].
  intros c (j & l & e & Hl & He & ->)%elem_of_paintCalls.
  rewrite Hed in He. simpl in He. apply list_elem_of_filter in He as [Hshows He].
  by exists j, l, e.
Qed.

(** ** Closing a document, once more *)

Lemma elem_of_clearCalls doc w c :
  c ∈ clearCalls doc w ↔
  ∃ j l e, layerAt w doc j = Some l ∧ e ∈ visibleTextEditors (window w) ∧
           editor_document e = doc ∧ c = SetDecorations (editor_id e) (type l) [].
Proof.
  unfold clearCalls, layerAt.
  destruct (documents w !! doc) as [m|]; simpl.
  - rewrite list_elem_of_bind. split.
    + intros (l & Hc & Hl). apply elem_of_sa_values in Hl as [j Hj].
      unfold clearCallsFor in Hc. apply list_elem_of_fmap in Hc as (e & -> & He).
      apply list_elem_of_filter in He as [Hshows He]. eauto 10.
    + intros (j & l & e & Hj & He & Hshows & ->). exists l. split.
      * unfold clearCallsFor.
        apply (list_elem_of_fmap_2 (λ e, SetDecorations (editor_id e) (type l) [])).
        by apply list_elem_of_filter.
      * apply elem_of_sa_values. eauto.
  - split; [by intros ?%elem_of_nil | by intros (j & l & e & ? & _)].
Qed.

(** X8. Closing a document that the table does not know changes
    nothing and calls the host not at all; so closing a document twice is
    closing it once. *)
Theorem flushDocument_unknown_is_identity (doc : nat) (w : World) :
  (documents w !! doc = None → flushDocument doc w = w) ∧
  flushDocument doc (flushDocument doc w) = flushDocument doc w.
Proof.
  assert (∀ w', documents w' !! doc = None → flushDocument doc w' = w') as Hunknown.
  { intros w' Hnone. unfold flushDocument.
    destruct (fromDocument_cases doc w') as [(m & Hm & _) | [_ ->]]; [congruence |].
    simpl. rewrite delete_insert_eq, delete_id by done. by destruct w'. }
  split; [apply Hunknown |].
  apply Hunknown. rewrite flushDocument_documents. apply lookup_delete_eq.
Qed.

(** X9. Closing a document takes exactly its entry out of the table,
    creates no decoration type, and leaves what every editor shows for
    the layers of the other documents as it is. *)
Theorem flushDocument_spares_other_documents (doc : nat) (w : World)
    (d j e : nat) (l : DocumentDecorationLayer) :
  reachable w →
  d ≠ doc →
  layerAt w d j = Some l →
  documents (flushDocument doc w) = delete doc (documents w) ∧
  decorationTypes (window (flushDocument doc w)) = decorationTypes (window w) ∧
  layerAt (flushDocument doc w) d j = Some l ∧
  painted (calls (window (flushDocument doc w))) e (type l) =
    painted (calls (window w)) e (type l).
Proof.
  intros Hreach Hd Hl. destruct (reachable_keeps _ Hreach) as [[_ Hdistinct] _].
  split; [apply flushDocument_documents |].
  split; [apply flushDocument_window |].
  split.
  - destruct (flushDocument_layers doc w d) as [-> _]. by rewrite decide_False.
  - rewrite flushDocument_calls. apply painted_untouched.
    intros o' (j0 & l0 & e0 & Hl0 & _ & _ & Hc)%elem_of_clearCalls.
    injection Hc as _ Hty _.
    by destruct (Hdistinct _ _ _ _ _ _ Hl Hl0 Hty).
Qed.

(** X10. After a document is closed, every visible editor that shows it
    shows nothing for the decoration type of any of its layers. *)
Theorem flushDocument_leaves_nothing_painted (doc : nat) (w : World)
    (j : nat) (l : DocumentDecorationLayer) (e : TextEditor) :
  layerAt w doc j = Some l →
  e ∈ visibleTextEditors (window w) →
  editor_document e = doc →
  painted (calls (window (flushDocument doc w))) (editor_id e) (type l) = [].
Proof.
  intros Hl He Hshows. rewrite flushDocument_calls. apply painted_last.
  - intros o' (j0 & l0 & e0 & _ & _ & _ & Hc)%elem_of_clearCalls. by injection Hc.
  - apply elem_of_clearCalls. eauto 10.
Qed.

(** X11. A write that arrives after its document was closed is not
    dropped: [setLine] registers the document again, with layers whose
    decoration types are all new, and the document then holds the written
    messages and nothing else. *)
Theorem setLine_after_close_starts_afresh (line : nat) (messages : list Message)
    (this : DocumentDecoration) (w : World) :
  reachable w →
  let closed := flushDocument (document this) w in
  let after := (setLine line messages this closed).2 in
  is_Some (documents after !! document this) ∧
  (∀ j n, lineAt after (document this) j n =
            if decide (j < length messages ∧ n = line)
            then decorationOf line j <$> messages !! j else None) ∧
  (∀ j l, layerAt after (document this) j = Some l →
          decorationTypes (window w) ≤ type l).
Proof.
  intros Hreach closed after. subst after closed.
  assert (reachable (flushDocument (document this) w)) as Hclosed
    by (eapply reachable_step; [done | apply step_flushDocument]).
  destruct (reachable_keeps _ Hclosed) as [Hok _].
  assert (∀ j, layerAt (flushDocument (document this) w) (document this) j = None)
    as Hlayers.
  { intros j. destruct (flushDocument_layers (document this) w (document this)) as [-> _].
    by rewrite decide_True. }
  assert (∀ j n, lineAt (flushDocument (document this) w) (document this) j n = None)
    as Hlines.
  { intros j n. destruct (flushDocument_layers (document this) w (document this)) as [_ ->].
    by rewrite decide_True. }
  split; [| split].
  - rewrite setLine_world. simpl. by rewrite lookup_insert_eq.
  - intros j n. rewrite setLine_lineAt, Hlines. by destruct (flushed this).
  - intros j l Hl.
    destruct (setLine_extends line messages this _ Hok) as (_ & _ & Hnew).
    destruct (Hnew j (type l)) as [Hold | (_ & Ht & _)].
    + simpl. by rewrite Hl.
    + simpl in Hold. by rewrite Hlayers in Hold.
    + destruct (flushDocument_window (document this) w) as [_ Htypes]. lia.
Qed.

(** X12. A render that fires after its document was closed paints
    nothing, and leaves an empty manager for the closed document in the
    table. *)
Theorem renderCallback_after_close (this : DocumentDecoration) (w : World) :
  let closed := flushDocument (document this) w in
  calls (window (renderCallback this closed).2) = calls (window closed) ∧
  documents (renderCallback this closed).2 !! document this = Some {| layers := [] |}.
Proof.
  intros closed.
  assert (documents closed !! document this = None) as Hnone.
  { unfold closed. rewrite flushDocument_documents. apply lookup_delete_eq. }
  destruct (renderCallback_world this closed) as (Hdocs & _ & _ & Hcalls).
  split.
  - rewrite Hcalls. unfold paintCalls. by rewrite Hnone, app_nil_r.
  - rewrite Hdocs, fromDocument_lookup, decide_True by done.
    unfold fromDocument. by rewrite Hnone.
Qed.

(** ** Layers are made once and used again *)

Lemma storeMessages_reuses line messages : ∀ k m win,
  (∀ j, k ≤ j < k + length messages → is_Some (sa_get (layers m) j)) →
  (storeMessages line k messages m win).2 = win.
Proof.
  induction messages as [| message rest IH]; intros k m win Hall; simpl in *; [done |].
  destruct (getLayer_cases k m win) as [(l & Hl & ->) | [Hn _]].
  - apply IH. intros j Hj. unfold setLayerLine. cbn [layers].
    rewrite sa_get_set_ne by lia. apply Hall. lia.
  - destruct (Hall k) as [l Hl]; [lia | congruence].
Qed.

Lemma setLine_dense line messages this w j :
  j < length messages →
  is_Some (layerAt (setLine line messages this w).2 (document this) j).
Proof.
  intros Hj. apply (fmap_is_Some type). rewrite setLine_layer_type.
  apply storeMessages_dense. lia.
Qed.

Lemma setLine_reuses line messages this w :
  (∀ j, j < length messages → is_Some (layerAt w (document this) j)) →
  window (setLine line messages this w).2 = window w.
Proof.
  intros Hall. rewrite setLine_world. simpl. apply storeMessages_reuses.
  intros j Hj. apply (fmap_is_Some type).
  change (is_Some (typeAt (if flushed this
                           then (fromDocument (document this) w).1
                           else flushLayers (fromDocument (document this) w).1) j)).
  rewrite setLine_start_type. apply fmap_is_Some, Hall. lia.
Qed.

(** X13. After [setLine line messages] the document has a layer in every
    slot below the number of messages. A layer that was there keeps its
    decoration type; at most one decoration type per message is created,
    and none when all the slots had layers already. *)
Theorem setLine_makes_layers_once (line : nat) (messages : list Message)
    (this : DocumentDecoration) (w : World) :
  let after := (setLine line messages this w).2 in
  (∀ j, j < length messages → is_Some (layerAt after (document this) j)) ∧
  (∀ j l, layerAt w (document this) j = Some l →
          type <$> layerAt after (document this) j = Some (type l)) ∧
  decorationTypes (window w) ≤ decorationTypes (window after)
    ≤ decorationTypes (window w) + length messages ∧
  ((∀ j, j < length messages → is_Some (layerAt w (document this) j)) →
   decorationTypes (window after) = decorationTypes (window w)).
Proof.
  intros after. subst after. split; [| split; [| split]].
  - intros j Hj. by apply setLine_dense.
  - intros j l Hl. rewrite setLine_layer_type. apply storeMessages_keeps_types.
    rewrite setLine_start_type. by rewrite Hl.
  - apply setLine_window.
  - intros Hall. by rewrite setLine_reuses.
Qed.

(** X14. Clearing a line after it was set empties it in every layer,
    whatever the earlier and the later message lists left there; the
    other lines are as [setLine] left them. *)
Theorem setLine_then_clearLine (line : nat) (messages : list Message)
    (this : DocumentDecoration) (w : World) (j n : nat) :
  let set := setLine line messages this w in
  lineAt (clearLine line set.1 set.2).2 (document this) j n =
    if decide (n = line) then None
    else if flushed this then lineAt w (document this) j n else None.
Proof.
  intros set. destruct (setLine_instance line messages this w) as (Hdoc & _ & _).
  fold set in Hdoc. rewrite <- Hdoc at 1. rewrite clearLine_lineAt, Hdoc.
  destruct (decide (n = line)) as [-> | Hn].
  - by rewrite decide_True.
  - rewrite decide_False by done. unfold set. rewrite setLine_lineAt.
    rewrite decide_False; [done | by intros [_ ?]].
Qed.

(** ** The order of the results *)

Lemma setLine_twice_lineAt l1 ms1 l2 ms2 this w j n :
  lineAt (setLine l2 ms2 (setLine l1 ms1 this w).1 (setLine l1 ms1 this w).2).2
         (document this) j n =
    if decide (j < length ms2 ∧ n = l2) then decorationOf l2 j <$> ms2 !! j
    else if decide (j < length ms1 ∧ n = l1) then decorationOf l1 j <$> ms1 !! j
    else if flushed this then lineAt w (document this) j n else None.
Proof.
  destruct (setLine_instance l1 ms1 this w) as (Hdoc & _ & _).
  rewrite <- Hdoc at 1. rewrite setLine_lineAt, Hdoc.
  rewrite setLine_flushed. by rewrite setLine_lineAt.
Qed.

Lemma setLine_twice_other l1 ms1 l2 ms2 this w d j n :
  d ≠ document this →
  lineAt (setLine l2 ms2 (setLine l1 ms1 this w).1 (setLine l1 ms1 this w).2).2 d j n =
    lineAt w d j n.
Proof.
  intros Hd. destruct (setLine_instance l1 ms1 this w) as (Hdoc & _ & _).
  rewrite setLine_lineAt_other by (by rewrite Hdoc).
  by rewrite setLine_lineAt_other.
Qed.

Lemma setLine_commutes l1 ms1 l2 ms2 this w d j n :
  l1 ≠ l2 →
  lineAt (setLine l2 ms2 (setLine l1 ms1 this w).1 (setLine l1 ms1 this w).2).2 d j n =
  lineAt (setLine l1 ms1 (setLine l2 ms2 this w).1 (setLine l2 ms2 this w).2).2 d j n.
Proof.
  intros Hl. destruct (decide (d = document this)) as [-> | Hd].
  - rewrite !setLine_twice_lineAt.
    repeat case_decide; try done; destruct_and!; congruence.
  - by rewrite !setLine_twice_other.
Qed.

Section update_message_order.

Context (l10n_t : string → string) (prerelease : string → option (list string)).

Local Abbreviation setUpdate := (setUpdateMessage l10n_t prerelease).

(** [setUpdateMessage] either returns at once or is [setLine] on a list
    of two to six messages that the package decides. *)
Lemma setUpdateMessage_shape packageInfo :
  (∀ line this w, setUpdate line packageInfo this w = (this, w)) ∨
  (∃ messages, 2 ≤ length messages ≤ 6 ∧
     ∀ line this w, setUpdate line packageInfo this w = setLine line messages this w).
Proof.
  unfold setUpdateMessage.
  destruct (getVersionLatest packageInfo) as [versionLatest|]; [| by left].
  destruct (truthy (Some versionLatest)); cbn [negb]; [| by left].
  right.
  destruct (negb (truthy (getVersionInstalled packageInfo)) && isVersionMaxed packageInfo).
  { eexists. split; [| done]. simpl. lia. }
  destruct (negb (truthy (getVersionInstalled packageInfo)));
    destruct (isVersionLatestAlreadyInstalled packageInfo);
    destruct (isVersionMajorUpdate packageInfo);
    destruct (is_Some_b (prerelease versionLatest));
    cbn [push app]; (eexists; split; [| done]; simpl; lia).
Qed.

(** X15. The results of two dependencies on different lines can arrive
    in either order: every entry of every layer of every document is the
    same after both. *)
Theorem setUpdateMessage_order_is_irrelevant (line1 line2 : nat)
    (package1 package2 : PackageRelated) (this : DocumentDecoration) (w : World)
    (d j n : nat) :
  line1 ≠ line2 →
  lineAt (setUpdate line2 package2 (setUpdate line1 package1 this w).1
                                   (setUpdate line1 package1 this w).2).2 d j n =
  lineAt (setUpdate line1 package1 (setUpdate line2 package2 this w).1
                                   (setUpdate line2 package2 this w).2).2 d j n.
Proof.
  intros Hlines.
  destruct (setUpdateMessage_shape package1) as [Hid1 | (ms1 & _ & Hset1)];
    destruct (setUpdateMessage_shape package2) as [Hid2 | (ms2 & _ & Hset2)].
  - by rewrite !Hid1, !Hid2.
  - by rewrite !Hid1, !Hset2.
  - by rewrite !Hid2, !Hset1.
  - rewrite !Hset1, !Hset2. by apply setLine_commutes.
Qed.

(** X16. Applying the same result to the same line a second time changes
    no entry of any layer, and creates no decoration type. *)
Theorem setUpdateMessage_again_changes_nothing (line : nat) (packageInfo : PackageRelated)
    (this : DocumentDecoration) (w : World) :
  let once := setUpdate line packageInfo this w in
  let twice := setUpdate line packageInfo once.1 once.2 in
  (∀ d j n, lineAt twice.2 d j n = lineAt once.2 d j n) ∧
  decorationTypes (window twice.2) = decorationTypes (window once.2).
Proof.
  intros once twice. subst twice once.
  destruct (setUpdateMessage_shape packageInfo) as [Hid | (ms & _ & Hset)].
  { by rewrite !Hid. }
  rewrite !Hset.
  destruct (setLine_instance line ms this w) as (Hdoc & _ & _).
  split.
  - intros d j n. destruct (decide (d = document this)) as [-> | Hd].
    + rewrite setLine_twice_lineAt, setLine_lineAt. by case_decide.
    + rewrite setLine_twice_other by done. by rewrite setLine_lineAt_other.
  - rewrite setLine_reuses; [done |].
    intros j Hj. rewrite Hdoc. by apply setLine_dense.
Qed.

(** X17. [setUpdateMessage] writes layers 0 to 5 only: it creates at most
    six decoration types, and on an instance that has flushed it leaves
    every entry of the layers from 6 on as it was. *)
Theorem setUpdateMessage_uses_six_layers (line : nat) (packageInfo : PackageRelated)
    (this : DocumentDecoration) (w : World) :
  let after := (setUpdate line packageInfo this w).2 in
  decorationTypes (window w) ≤ decorationTypes (window after)
    ≤ decorationTypes (window w) + 6 ∧
  (flushed this = true →
   ∀ j n, 6 ≤ j → lineAt after (document this) j n = lineAt w (document this) j n).
Proof.
  intros after. subst after.
  destruct (setUpdateMessage_shape packageInfo) as [Hid | (ms & Hlen & Hset)].
  { rewrite Hid. simpl. split; [lia | done]. }
  rewrite Hset. split.
  - pose proof (setLine_window line ms this w) as (_ & _ & Htypes). lia.
  - intros Hflushed j n Hj. rewrite setLine_lineAt, Hflushed.
    rewrite decide_False; [done | lia].
Qed.

End update_message_order.

Local Open Scope string_scope.

(** ** The checking icon and the other qualifiers *)

(** X18. [setCheckingMessage line] puts the checking icon into layer 0 at
    the line, silver (gray in a dark theme) and two characters from the
    code, and writes no other entry. *)
Theorem setCheckingMessage_shows_icon (line : nat) (this : DocumentDecoration) (w : World) :
  let after := (setCheckingMessage line this w).2 in
  lineAt after (document this) 0 line =
    Some {| range := endOfLine line;
            renderAfter := {| contentText := Some Icons.CHECKING;
                              color := Some "silver";
                              margin := Some "0 0 0 2ch" |};
            renderDarkAfter := {| contentText := None;
                                  color := Some "gray";
                                  margin := None |} |} ∧
  ∀ j n, j ≠ 0 ∨ n ≠ line →
    lineAt after (document this) j n =
      if flushed this then lineAt w (document this) j n else None.
Proof.
  intros after. subst after. unfold setCheckingMessage. split.
  - rewrite setLine_lineAt. by rewrite decide_True by (simpl; lia).
  - intros j n Hother. rewrite setLine_lineAt.
    rewrite decide_False; [done |]. simpl. lia.
Qed.

Section update_message_qualifiers.

Context (l10n_t : string → string) (prerelease : string → option (list string)).

Local Abbreviation setUpdate := (setUpdateMessage l10n_t prerelease).

(** X19. With an installed version that is already the latest, the first
    qualifier is "(already installed, just formalization)" and not
    "(install pending)"; the warning of a major update, when there is one,
    comes right after it. *)
Theorem setUpdateMessage_formalization (line : nat) (packageInfo : PackageRelated)
    (this : DocumentDecoration) (w : World) (versionLatest : string) :
  getVersionLatest packageInfo = Some versionLatest →
  versionLatest ≠ "" →
  truthy (getVersionInstalled packageInfo) = true →
  isVersionLatestAlreadyInstalled packageInfo = true →
  let after := (setUpdate line packageInfo this w).2 in
  textAt after (document this) 3 line =
    Some ("(" +:+ l10n_t "already installed, just formalization" +:+ ")") ∧
  (isVersionMajorUpdate packageInfo = true →
   textAt after (document this) 4 line =
     Some ("(" +:+ l10n_t "attention: major update!" +:+ ")")).
Proof.
  intros Hlatest Hne Hinstalled Halready after. subst after.
  unfold setUpdateMessage. rewrite Hlatest, Hinstalled, Halready.
  replace (truthy (Some versionLatest)) with true
    by (symmetry; by apply bool_decide_eq_true).
  cbn [negb andb].
  destruct (isVersionMajorUpdate packageInfo);
    destruct (is_Some_b (prerelease versionLatest)); cbn [push app];
    (split; [shown_text | intros Hmajor; first [done | shown_text]]).
Qed.

(** X20. On an instance that has not flushed, and outside the
    pending-only branch, the line occupies after [setUpdateMessage] the
    layers 0, 1, 2 and one more for each qualifier that applies, and no
    other layer. *)
Theorem setUpdateMessage_layer_count (line : nat) (packageInfo : PackageRelated)
    (this : DocumentDecoration) (w : World) (versionLatest : string) (j : nat) :
  getVersionLatest packageInfo = Some versionLatest →
  versionLatest ≠ "" →
  negb (truthy (getVersionInstalled packageInfo)) && isVersionMaxed packageInfo = false →
  flushed this = false →
  is_Some (lineAt (setUpdate line packageInfo this w).2 (document this) j line) ↔
  (j < 3 + qualifierCount prerelease packageInfo versionLatest)%nat.
Proof.
  intros Hlatest Hne Hbranch Hflushed.
  assert (∃ messages,
            setUpdate line packageInfo this w = setLine line messages this w ∧
            length messages = 3 + qualifierCount prerelease packageInfo versionLatest)
    as (messages & -> & <-).
  { unfold setUpdateMessage, qualifierCount. rewrite Hlatest, Hbranch.
    replace (truthy (Some versionLatest)) with true
      by (symmetry; by apply bool_decide_eq_true).
    cbn [negb].
    destruct (negb (truthy (getVersionInstalled packageInfo)));
      destruct (isVersionLatestAlreadyInstalled packageInfo);
      destruct (isVersionMajorUpdate packageInfo);
      destruct (is_Some_b (prerelease versionLatest));
      cbn [push app orb]; by eexists. }
  rewrite setLine_lineAt, Hflushed. case_decide as Hwritten.
  - destruct Hwritten as [Hj _]. split; [done |]. intros _.
    apply fmap_is_Some. by apply lookup_lt_is_Some.
  - split; [by intros [? ?] |]. intros Hj. destruct Hwritten. done.
Qed.

(** [setUpdateMessage] and [setCheckingMessage] are steps of the
    extension. *)
Lemma setUpdateMessage_reachable line packageInfo this w :
  reachable w → reachable (setUpdate line packageInfo this w).2.
Proof.
  intros Hreach.
  destruct (setUpdateMessage_shape l10n_t prerelease packageInfo)
    as [Hid | (ms & _ & Hset)].
  - by rewrite Hid.
  - rewrite Hset. eapply reachable_step; [done | apply step_setLine].
Qed.

End update_message_qualifiers.

Local Close Scope string_scope.

Lemma setCheckingMessage_reachable line this w :
  reachable w → reachable (setCheckingMessage line this w).2.
Proof. intros Hreach. eapply reachable_step; [done | apply step_setLine]. Qed.

Lemma emptyWorld_reachable : reachable emptyWorld.
Proof. exists emptyWorld. split; [done | apply rtc_refl]. Qed.

Lemma shownBaz_reachable : reachable shownBaz.2.
Proof. apply setUpdateMessage_reachable, emptyWorld_reachable. Qed.

Lemma twoLines_reachable : reachable twoLines.2.
Proof. apply setCheckingMessage_reachable, shownBaz_reachable. Qed.

Lemma twoDocuments_reachable : reachable twoDocuments.2.
Proof. apply setCheckingMessage_reachable, shownBaz_reachable. Qed.

(** ** These properties on the sample runs *)

Lemma fromDocument_registers_once_witness :
  documents (fromDocument 7 emptyWorld).2 !! 7 = Some {| layers := [] |} ∧
  documents (fromDocument 7 emptyWorld).2 !! 8 = documents emptyWorld !! 8.
Proof.
  pose proof (fromDocument_registers_once 7 emptyWorld) as Hfrom.
  destruct (fromDocument 7 emptyWorld) as [m w1] eqn:Heq.
  destruct Hfrom as (Hreg & Hothers & _).
  vm_compute in Heq. injection Heq as <- <-.
  split; [exact Hreg | apply (Hothers 8); lia].
Defined.

Lemma setLine_clearLine_other_documents_witness :
  documents (setLine 3 [mkMessage Icons.CHECKING None None] shownBaz.1 twoDocuments.2).2 !! 8 =
    documents twoDocuments.2 !! 8 ∧
  documents (clearLine 3 shownBaz.1 twoDocuments.2).2 !! 8 = documents twoDocuments.2 !! 8.
Proof.
  apply (setLine_clearLine_other_documents 3 [mkMessage Icons.CHECKING None None]
           shownBaz.1 twoDocuments.2 8).
  vm_compute. lia.
Defined.

Lemma reachable_typesOK_witness : typesOK twoDocuments.2.
Proof. apply (reachable_typesOK twoDocuments.2). apply twoDocuments_reachable. Defined.

Lemma reachable_linesInPlace_witness : linesInPlace twoDocuments.2.
Proof. apply (reachable_linesInPlace twoDocuments.2). apply twoDocuments_reachable. Defined.

Lemma renderCallback_shows_the_layers_witness :
  ∃ l, layerAt twoLines.2 7 0 = Some l ∧
       painted (calls (window (renderCallback twoLines.1 twoLines.2).2)) 0 (type l) =
         sa_values (lines l).
Proof.
  destruct (layerAt twoLines.2 7 0) as [l|] eqn:Hl; [| by vm_compute in Hl].
  exists l. split; [done |].
  destruct (renderCallback_shows_the_layers twoLines.1 twoLines.2
              {| editor_id := 0; editor_document := 7 |} 0 l) as [Hpainted _];
    [apply twoLines_reachable | vm_compute; by left | exact Hl | exact Hpainted].
Defined.

Lemma cleared_line_is_not_painted_witness :
  decorationOf 4 0 (mkMessage Icons.CHECKING None None)
    ∈ painted (calls (window (renderCallback (clearLine 3 twoLines.1 twoLines.2).1
                                (clearLine 3 twoLines.1 twoLines.2).2).2)) 0 0 ∧
  pos_line (range_start (range (decorationOf 4 0 (mkMessage Icons.CHECKING None None)))) ≠ 3.
Proof.
  assert (decorationOf 4 0 (mkMessage Icons.CHECKING None None)
            ∈ painted (calls (window (renderCallback (clearLine 3 twoLines.1 twoLines.2).1
                                        (clearLine 3 twoLines.1 twoLines.2).2).2)) 0 0)
    as Hshown by (vm_compute; by left).
  split; [exact Hshown |].
  assert (∃ l, layerAt twoLines.2 7 0 = Some l ∧ type l = 0) as (l & Hl & Hty)
    by (vm_compute; eauto).
  apply (cleared_line_is_not_painted 3 twoLines.1 twoLines.2
           {| editor_id := 0; editor_document := 7 |} 0 l
           (decorationOf 4 0 (mkMessage Icons.CHECKING None None)));
    [apply twoLines_reachable | vm_compute; by left | exact Hl |].
  rewrite Hty. exact Hshown.
Defined.

Lemma renderCallback_paints_own_editors_witness :
  calls (window (renderCallback twoLines.1 twoLines.2).2) =
    calls (window twoLines.2) ++ paintCalls twoLines.1 twoLines.2.
Proof.
  destruct (renderCallback_paints_own_editors 7 emptyWorld twoLines.1 twoLines.2)
    as [Hcalls _]; [reflexivity | reflexivity | exact Hcalls].
Defined.

Lemma flushDocument_unknown_is_identity_witness :
  flushDocument 9 shownBaz.2 = shownBaz.2.
Proof.
  destruct (flushDocument_unknown_is_identity 9 shownBaz.2) as [Hunknown _].
  apply Hunknown. by vm_compute.
Defined.

Lemma flushDocument_spares_other_documents_witness :
  ∃ l, layerAt twoDocuments.2 7 0 = Some l ∧
       layerAt (flushDocument 8 twoDocuments.2) 7 0 = Some l ∧
       painted (calls (window (flushDocument 8 twoDocuments.2))) 0 (type l) =
         painted (calls (window twoDocuments.2)) 0 (type l).
Proof.
  destruct (layerAt twoDocuments.2 7 0) as [l|] eqn:Hl; [| by vm_compute in Hl].
  exists l. split; [done |].
  destruct (flushDocument_spares_other_documents 8 twoDocuments.2 7 0 0 l)
    as (_ & _ & Hkept & Hpainted);
    [apply twoDocuments_reachable | lia | exact Hl |].
  split; [exact Hkept | exact Hpainted].
Defined.

Lemma flushDocument_leaves_nothing_painted_witness :
  painted (calls (window (flushDocument 7 shownBaz.2))) 0 5 = [].
Proof.
  assert (∃ l, layerAt shownBaz.2 7 5 = Some l ∧ type l = 5) as (l & Hl & Hty)
    by (vm_compute; eauto).
  assert (painted (calls (window (flushDocument 7 shownBaz.2))) 0 (type l) = [])
    as Hnothing.
  { apply (flushDocument_leaves_nothing_painted 7 shownBaz.2 5 l
             {| editor_id := 0; editor_document := 7 |});
      [exact Hl | by left | reflexivity]. }
  by rewrite Hty in Hnothing.
Defined.

Lemma setLine_after_close_starts_afresh_witness :
  lineAt (setLine 3 [mkMessage Icons.CHECKING None None] shownBaz.1
            (flushDocument 7 shownBaz.2)).2 7 1 3 = None.
Proof.
  destruct (setLine_after_close_starts_afresh 3 [mkMessage Icons.CHECKING None None]
              shownBaz.1 shownBaz.2) as (_ & Hlines & _);
    [apply shownBaz_reachable |].
  exact (Hlines 1 3).
Defined.

Lemma setLine_makes_layers_once_witness :
  decorationTypes
    (window (setLine 3 [mkMessage Icons.CHECKING None None] shownBaz.1 shownBaz.2).2) =
  decorationTypes (window shownBaz.2).
Proof.
  destruct (setLine_makes_layers_once 3 [mkMessage Icons.CHECKING None None]
              shownBaz.1 shownBaz.2) as (_ & _ & _ & Hreuse).
  apply Hreuse. intros j Hj. simpl in Hj.
  assert (j = 0) as -> by lia. vm_compute. eauto.
Defined.

Lemma setUpdateMessage_order_is_irrelevant_witness :
  lineAt (setUpdateMessage l10n_none prerelease_sample 4 foo
            (setUpdateMessage l10n_none prerelease_sample 3 baz scan emptyWorld).1
            (setUpdateMessage l10n_none prerelease_sample 3 baz scan emptyWorld).2).2 7 0 3 =
  lineAt (setUpdateMessage l10n_none prerelease_sample 3 baz
            (setUpdateMessage l10n_none prerelease_sample 4 foo scan emptyWorld).1
            (setUpdateMessage l10n_none prerelease_sample 4 foo scan emptyWorld).2).2 7 0 3.
Proof.
  apply (setUpdateMessage_order_is_irrelevant l10n_none prerelease_sample 3 4 baz foo
           scan emptyWorld 7 0 3).
  lia.
Defined.

Lemma setUpdateMessage_uses_six_layers_witness :
  lineAt (setUpdateMessage l10n_none prerelease_sample 3 bar shownBaz.1 shownBaz.2).2 7 6 3 =
    lineAt shownBaz.2 7 6 3.
Proof.
  destruct (setUpdateMessage_uses_six_layers l10n_none prerelease_sample 3 bar
              shownBaz.1 shownBaz.2) as [_ Hhigher].
  apply (Hhigher eq_refl 6 3). lia.
Defined.

Lemma setCheckingMessage_shows_icon_witness :
  lineAt (setCheckingMessage 3 shownBaz.1 shownBaz.2).2 7 2 3 = lineAt shownBaz.2 7 2 3.
Proof.
  destruct (setCheckingMessage_shows_icon 3 shownBaz.1 shownBaz.2) as [_ Hothers].
  apply (Hothers 2 3). left. lia.
Defined.

Lemma setUpdateMessage_formalization_witness :
  textAt (setUpdateMessage l10n_none prerelease_sample 3 leftPad scan emptyWorld).2 7 3 3 =
    Some "(already installed, just formalization)"%string.
Proof.
  destruct (setUpdateMessage_formalization l10n_none prerelease_sample 3 leftPad
              scan emptyWorld "1.2.0"%string) as [Hformal _];
    [reflexivity | discriminate | reflexivity | reflexivity | exact Hformal].
Defined.

Lemma setUpdateMessage_layer_count_witness :
  is_Some (lineAt (setUpdateMessage l10n_none prerelease_sample 3 bar scan emptyWorld).2
                  7 4 3) ↔
  4 < 3 + qualifierCount prerelease_sample bar "2.0.0-beta.1"%string.
Proof.
  apply (setUpdateMessage_layer_count l10n_none prerelease_sample 3 bar scan emptyWorld
           "2.0.0-beta.1"%string 4);
    [reflexivity | discriminate | reflexivity | reflexivity].
Defined.

(** The declared, the installed and the latest version are the same: the
    line is not cleared, it shows the version and that the update is a
    formality. *)
Example scenario_left_pad :
  lineTexts (setUpdateMessage l10n_none prerelease_sample 3 leftPad scan emptyWorld).2 7 3 =
    [Some "⚠"; Some "Update available:"; Some "1.2.0";
     Some "(already installed, just formalization)"]%string.
Proof. by vm_compute. Qed.
